(** * Entrust IdentityGuard TOTP provisioning: secret derivation and URI encoding

    A shallow embedding of [entrust-totp.js] (the Node command-line tool) and of
    its browser variant, together with the parts of the JavaScript runtime the
    two programs call: string primitives, [BigInt] and [parseInt], the Node
    [Buffer] writers, UTF-8 encoding, [encodeURIComponent], [URLSearchParams]
    and PBKDF2-HMAC-SHA-256.

    Conventions.
    - A JavaScript string is the list of its UTF-16 code units.
    - A byte sequence ([Buffer], [Uint8Array]) is a list of integers; every
      store into one goes through [ToUint8], as a typed-array store does.
    - Code that can throw returns a [result]: [Ok v] or [Throw e]. *)

From Stdlib Require Import Ascii String.
From Stdlib Require Import ZArith List Bool Lia.
Import ListNotations.
Local Open Scope Z_scope.

(** ** Exceptions *)

Inductive js_error : Type :=
| SyntaxError   (* BigInt("12a") *)
| RangeError    (* ERR_OUT_OF_RANGE of the Buffer writers *)
| URIError.     (* encodeURIComponent on an unpaired surrogate *)

Inductive result (A : Type) : Type :=
| Ok (a : A)
| Throw (e : js_error).

Arguments Ok {A} a.
Arguments Throw {A} e.

Definition bind {A B : Type} (m : result A) (k : A -> result B) : result B :=
  match m with
  | Ok a => k a
  | Throw e => Throw e
  end.

Notation "x <- m ;; k" := (bind m (fun x => k))
  (at level 61, m at next level, right associativity).

(** ** The JavaScript runtime *)

Module JS.

Definition code_unit := Z.
Definition jsstring := list code_unit.
Definition bytes := list Z.

(** Code unit of an ASCII character, and the string of an ASCII literal. *)
Definition ch (a : ascii) : code_unit := Z.of_N (N_of_ascii a).

Definition lit (s : string) : jsstring := map ch (list_ascii_of_string s).

(** *** Numbers

    A [Number] that holds an integer is modelled by that integer.  The only
    Numbers of these programs come from [parseInt] and from small loop
    counters; the first is exact below 2^53 and is rounded monotonically to a
    double above, which leaves every comparison against [0xffffffff] made
    below unchanged.  Statements about the bits of a parsed Number are made
    below 2^53 only. *)
Inductive number : Type :=
| NaN
| Int (z : Z).

Definition ToInt32 (z : Z) : Z := (z + 2 ^ 31) mod 2 ^ 32 - 2 ^ 31.
Definition ToUint32 (z : Z) : Z := z mod 2 ^ 32.
Definition ToUint8 (z : Z) : Z := z mod 2 ^ 8.

(** [NaN] converts to 0 under the integer conversions. *)
Definition integral (n : number) : Z :=
  match n with
  | NaN => 0
  | Int z => z
  end.

(** The Number operators [<<], [>>], [>>>], [|] and [&]. *)
Definition shl (a n : Z) : Z := ToInt32 (Z.shiftl (ToInt32 a) (ToUint32 n mod 32)).
Definition sar (a n : Z) : Z := Z.shiftr (ToInt32 a) (ToUint32 n mod 32).
Definition shr (a n : Z) : Z := Z.shiftr (ToUint32 a) (ToUint32 n mod 32).
Definition bor (a b : Z) : Z := Z.lor (ToInt32 a) (ToInt32 b).
Definition band (a b : Z) : Z := Z.land (ToInt32 a) (ToInt32 b).

(** *** Strings *)

Definition isDecimalDigit (c : code_unit) : bool := (48 <=? c) && (c <=? 57).

(** WhiteSpace and LineTerminator code points, as [String.prototype.trim] and
    the numeric-string grammar skip them. *)
Definition isStrWhiteSpaceChar (c : code_unit) : bool :=
  ((9 <=? c) && (c <=? 13)) || (c =? 32) || (c =? 160) || (c =? 5760)
  || ((8192 <=? c) && (c <=? 8202)) || (c =? 8232) || (c =? 8233)
  || (c =? 8239) || (c =? 8287) || (c =? 12288) || (c =? 65279).

Fixpoint dropWhile {A : Type} (p : A -> bool) (l : list A) : list A :=
  match l with
  | [] => []
  | x :: l' => if p x then dropWhile p l' else l
  end.

Fixpoint takeWhile {A : Type} (p : A -> bool) (l : list A) : list A :=
  match l with
  | [] => []
  | x :: l' => if p x then x :: takeWhile p l' else []
  end.

Definition trimStart (s : jsstring) : jsstring := dropWhile isStrWhiteSpaceChar s.
Definition trimEnd (s : jsstring) : jsstring := rev (dropWhile isStrWhiteSpaceChar (rev s)).
Definition trim (s : jsstring) : jsstring := trimEnd (trimStart s).

(** [s.replace(/c/g, '')] for a pattern that is one literal character. *)
Definition removeAll (c : code_unit) (s : jsstring) : jsstring :=
  filter (fun x => negb (x =? c)) s.

(** [s.slice(start, end)], negative indices counting from the end. *)
Definition slice {A : Type} (s : list A) (start stop : Z) : list A :=
  let len := Z.of_nat (length s) in
  let from := if start <? 0 then Z.max (len + start) 0 else Z.min start len in
  let to := if stop <? 0 then Z.max (len + stop) 0 else Z.min stop len in
  firstn (Z.to_nat (Z.max (to - from) 0)) (skipn (Z.to_nat from) s).

(** *** Numeric strings *)

(** Value of a digit or letter as a digit of some radix. *)
Definition digitValue (c : code_unit) : option Z :=
  if isDecimalDigit c then Some (c - 48)
  else if (97 <=? c) && (c <=? 122) then Some (c - 87)
  else if (65 <=? c) && (c <=? 90) then Some (c - 55)
  else None.

Definition isRadixDigit (R : Z) (c : code_unit) : bool :=
  match digitValue c with
  | Some d => d <? R
  | None => false
  end.

(** Mathematical value of a string of radix-[R] digits, most significant first. *)
Definition digitsValue (R : Z) (s : jsstring) : Z :=
  fold_left (fun acc c => acc * R + match digitValue c with Some d => d | None => 0 end) s 0.

(** One or more radix-[R] digits and nothing else. *)
Definition parseDigits (R : Z) (s : jsstring) : option Z :=
  match s with
  | [] => None
  | _ => if forallb (isRadixDigit R) s then Some (digitsValue R s) else None
  end.

(** The prefixes [0x], [0o] and [0b] (either case) of NonDecimalIntegerLiteral. *)
Definition nonDecimalPrefix (s : jsstring) : option (Z * jsstring) :=
  match s with
  | c :: p :: digits =>
      if c =? ch "0" then
        if (p =? ch "x") || (p =? ch "X") then Some (16, digits)
        else if (p =? ch "o") || (p =? ch "O") then Some (8, digits)
        else if (p =? ch "b") || (p =? ch "B") then Some (2, digits)
        else None
      else None
  | _ => None
  end.

(** StringToBigInt: surrounding white space is skipped; the empty string is 0;
    otherwise a prefixed literal without sign, or a decimal literal with an
    optional sign. *)
Definition StringToBigInt (str : jsstring) : option Z :=
  match trim str with
  | [] => Some 0
  | c :: rest =>
      match nonDecimalPrefix (c :: rest) with
      | Some (R, digits) => parseDigits R digits
      | None =>
          if c =? ch "+" then parseDigits 10 rest
          else if c =? ch "-" then option_map Z.opp (parseDigits 10 rest)
          else parseDigits 10 (c :: rest)
      end
  end.

(** [BigInt(string)]. *)
Definition BigInt (str : jsstring) : result Z :=
  match StringToBigInt str with
  | Some n => Ok n
  | None => Throw SyntaxError
  end.

(** [parseInt(string)] with no radix argument: leading white space and a sign
    are skipped, [0x] selects radix 16, and the longest prefix of digits is
    the value; no digit at all gives [NaN]. *)
Definition parseInt (inputString : jsstring) : number :=
  let S0 := trimStart inputString in
  let '(sign, S1) :=
    match S0 with
    | c :: r => if c =? ch "-" then (-1, r) else if c =? ch "+" then (1, r) else (1, S0)
    | [] => (1, S0)
    end in
  let '(R, S2) :=
    match S1 with
    | a :: b :: r =>
        if (a =? ch "0") && ((b =? ch "x") || (b =? ch "X")) then (16, r) else (10, S1)
    | _ => (10, S1)
    end in
  match takeWhile (isRadixDigit R) S2 with
  | [] => NaN
  | digits => Int (sign * digitsValue R digits)
  end.

(** *** UTF-16 and UTF-8 *)

Definition isHighSurrogate (c : code_unit) : bool := (55296 <=? c) && (c <=? 56319).
Definition isLowSurrogate (c : code_unit) : bool := (56320 <=? c) && (c <=? 57343).

Definition surrogatePair (hi lo : code_unit) : Z :=
  (hi - 55296) * 1024 + (lo - 56320) + 65536.

(** The code points of a string; [None] stands for an unpaired surrogate. *)
Fixpoint codePoints (s : jsstring) : list (option Z) :=
  match s with
  | [] => []
  | c :: rest =>
      if isHighSurrogate c then
        match rest with
        | d :: rest' =>
            if isLowSurrogate d then Some (surrogatePair c d) :: codePoints rest'
            else None :: codePoints rest
        | [] => [None]
        end
      else if isLowSurrogate c then None :: codePoints rest
      else Some c :: codePoints rest
  end.

Definition utf8CodePoint (cp : Z) : bytes :=
  if cp <? 128 then [cp]
  else if cp <? 2048 then
    [Z.lor 192 (Z.shiftr cp 6); Z.lor 128 (Z.land cp 63)]
  else if cp <? 65536 then
    [Z.lor 224 (Z.shiftr cp 12); Z.lor 128 (Z.land (Z.shiftr cp 6) 63);
     Z.lor 128 (Z.land cp 63)]
  else
    [Z.lor 240 (Z.shiftr cp 18); Z.lor 128 (Z.land (Z.shiftr cp 12) 63);
     Z.lor 128 (Z.land (Z.shiftr cp 6) 63); Z.lor 128 (Z.land cp 63)].

(** UTF-8 encoding with U+FFFD for unpaired surrogates: what
    [Buffer.from(s, 'utf-8')], [TextEncoder.encode] and the conversion to a
    USVString followed by UTF-8 encoding all compute. *)
Definition utf8Encode (s : jsstring) : bytes :=
  flat_map (fun cp => utf8CodePoint (match cp with Some c => c | None => 65533 end))
           (codePoints s).

(** [s.isWellFormed()]: no unpaired surrogate. *)
Definition isWellFormed (s : jsstring) : bool :=
  forallb (fun cp => match cp with Some _ => true | None => false end) (codePoints s).

(** *** Typed arrays *)

(** [new Uint8Array(n)], [Buffer.alloc(n)]. *)
Definition alloc (n : nat) : bytes := repeat 0 n.

(** [a[i] = v]: the value is stored modulo 256; a store outside the array is
    ignored. *)
Fixpoint store (a : bytes) (i : nat) (v : Z) : bytes :=
  match a, i with
  | [], _ => []
  | _ :: a', O => ToUint8 v :: a'
  | x :: a', S i' => x :: store a' i' v
  end.

(** [a.subarray(start, end)] for indices inside the array; an omitted [end]
    is the array's length. *)
Definition subarray (a : bytes) (start stop : nat) : bytes :=
  firstn (stop - start) (skipn start a).

Definition subarrayFrom (a : bytes) (start : nat) : bytes :=
  subarray a start (length a).

(** [s.slice(start)]: to the end. *)
Definition sliceFrom {A : Type} (s : list A) (start : Z) : list A :=
  slice s start (Z.of_nat (length s)).

End JS.

(** ** Node's [Buffer] writers

    After [lib/internal/buffer.js].  Both writers first run [checkInt], which
    throws [ERR_OUT_OF_RANGE] (a [RangeError]) when [value > max || value < min];
    a [NaN] fails neither comparison.  They are used here at offset 0 of a
    buffer of exactly the written width. *)

Module NodeBuffer.
Import JS.

(** [buf.writeBigUInt64BE(value, 0)]. *)
Definition writeBigUInt64BE (buf : bytes) (value : Z) : result bytes :=
  if (value >? 0xffffffffffffffff) || (value <? 0) then Throw RangeError
  else
    let lo := Z.land value 0xffffffff in
    let buf := store buf 7 lo in
    let lo := sar lo 8 in
    let buf := store buf 6 lo in
    let lo := sar lo 8 in
    let buf := store buf 5 lo in
    let lo := sar lo 8 in
    let buf := store buf 4 lo in
    let hi := Z.land (Z.shiftr value 32) 0xffffffff in
    let buf := store buf 3 hi in
    let hi := sar hi 8 in
    let buf := store buf 2 hi in
    let hi := sar hi 8 in
    let buf := store buf 1 hi in
    let hi := sar hi 8 in
    let buf := store buf 0 hi in
    Ok buf.

Definition outOfRange (value : number) (min max : Z) : bool :=
  match value with
  | NaN => false
  | Int v => (v >? max) || (v <? min)
  end.

(** [buf.writeUInt32BE(value, 0)]. *)
Definition writeUInt32BE (buf : bytes) (value : number) : result bytes :=
  if outOfRange value 0 0xffffffff then Throw RangeError
  else
    let value := integral value in
    let buf := store buf 3 value in
    let value := shr value 8 in
    let buf := store buf 2 value in
    let value := shr value 8 in
    let buf := store buf 1 value in
    let value := shr value 8 in
    let buf := store buf 0 value in
    Ok buf.

End NodeBuffer.

(** ** PBKDF2-HMAC-SHA-256

    What [crypto.pbkdf2Sync(password, salt, iterations, keylen, 'sha256')] and
    WebCrypto's [deriveBits] with [{name: 'PBKDF2', hash: 'SHA-256'}] both
    compute: FIPS 180-4 SHA-256, RFC 2104 HMAC and RFC 8018 PBKDF2. *)

Module Crypto.
Import JS.

Definition add32 (x y : Z) : Z := (x + y) mod 2 ^ 32.
Definition rotr (n x : Z) : Z := Z.lor (Z.shiftr x n) (Z.shiftl x (32 - n) mod 2 ^ 32).
Definition Ch (x y z : Z) : Z := Z.lxor (Z.land x y) (Z.land (Z.lxor x 0xffffffff) z).
Definition Maj (x y z : Z) : Z := Z.lxor (Z.lxor (Z.land x y) (Z.land x z)) (Z.land y z).
Definition Sigma0 (x : Z) : Z := Z.lxor (Z.lxor (rotr 2 x) (rotr 13 x)) (rotr 22 x).
Definition Sigma1 (x : Z) : Z := Z.lxor (Z.lxor (rotr 6 x) (rotr 11 x)) (rotr 25 x).
Definition sigma0 (x : Z) : Z := Z.lxor (Z.lxor (rotr 7 x) (rotr 18 x)) (Z.shiftr x 3).
Definition sigma1 (x : Z) : Z := Z.lxor (Z.lxor (rotr 17 x) (rotr 19 x)) (Z.shiftr x 10).

(** The constants are the leading 32 fraction bits of the square roots (initial
    hash value) and cube roots (round constants) of the first primes. *)
Definition isPrime (n : Z) : bool :=
  forallb (fun d => negb (n mod Z.of_nat d =? 0)) (seq 2 (Z.to_nat n - 2)).

Definition primes64 : list Z :=
  Eval vm_compute in filter isPrime (map Z.of_nat (seq 2 310)).

Fixpoint cubeRootBits (n : Z) (b : nat) (r : Z) : Z :=
  match b with
  | O => r
  | S b' =>
      let r' := r + 2 ^ Z.of_nat b' in
      cubeRootBits n b' (if r' * r' * r' <=? n then r' else r)
  end.

Definition initialHash : list Z :=
  Eval vm_compute in map (fun p => Z.sqrt (p * 2 ^ 64) mod 2 ^ 32) (firstn 8 primes64).

Definition roundConstants : list Z :=
  Eval vm_compute in map (fun p => cubeRootBits (p * 2 ^ 96) 40 0 mod 2 ^ 32) primes64.

(** Big-endian bytes of a 32-bit word, and the word of four bytes. *)
Definition wordBytes (w : Z) : bytes :=
  [Z.shiftr w 24 mod 256; Z.shiftr w 16 mod 256; Z.shiftr w 8 mod 256; w mod 256].

Fixpoint words (n : nat) (bs : bytes) : list Z :=
  match n, bs with
  | S n', b0 :: b1 :: b2 :: b3 :: rest =>
      (b0 * 2 ^ 24 + b1 * 2 ^ 16 + b2 * 2 ^ 8 + b3) :: words n' rest
  | _, _ => []
  end.

(** Message schedule; [recent] holds the words computed so far, latest first. *)
Fixpoint schedule (n : nat) (recent : list Z) : list Z :=
  match n with
  | O => rev recent
  | S n' =>
      let w := add32 (add32 (sigma1 (nth 1 recent 0)) (nth 6 recent 0))
                     (add32 (sigma0 (nth 14 recent 0)) (nth 15 recent 0)) in
      schedule n' (w :: recent)
  end.

Record hash : Type := mkHash { ha : Z; hb : Z; hc : Z; hd : Z; he : Z; hf : Z; hg : Z; hh : Z }.

Definition round (s : hash) (kw : Z * Z) : hash :=
  let t1 := add32 (add32 (add32 (hh s) (Sigma1 (he s))) (Ch (he s) (hf s) (hg s)))
                  (add32 (fst kw) (snd kw)) in
  let t2 := add32 (Sigma0 (ha s)) (Maj (ha s) (hb s) (hc s)) in
  mkHash (add32 t1 t2) (ha s) (hb s) (hc s) (add32 (hd s) t1) (he s) (hf s) (hg s).

Definition compress (H : hash) (block : bytes) : hash :=
  let W := schedule 48 (rev (words 16 block)) in
  let s := fold_left round (combine roundConstants W) H in
  mkHash (add32 (ha H) (ha s)) (add32 (hb H) (hb s)) (add32 (hc H) (hc s))
         (add32 (hd H) (hd s)) (add32 (he H) (he s)) (add32 (hf H) (hf s))
         (add32 (hg H) (hg s)) (add32 (hh H) (hh s)).

Fixpoint hashBlocks (n : nat) (H : hash) (msg : bytes) : hash :=
  match n with
  | O => H
  | S n' => hashBlocks n' (compress H (firstn 64 msg)) (skipn 64 msg)
  end.

Definition pad (msg : bytes) : bytes :=
  let len := Z.of_nat (length msg) in
  msg ++ [128] ++ repeat 0 (Z.to_nat ((55 - len) mod 64))
      ++ wordBytes (Z.shiftr (8 * len) 32) ++ wordBytes ((8 * len) mod 2 ^ 32).

Definition sha256 (msg : bytes) : bytes :=
  let padded := pad msg in
  let H0 := mkHash (nth 0 initialHash 0) (nth 1 initialHash 0) (nth 2 initialHash 0)
                   (nth 3 initialHash 0) (nth 4 initialHash 0) (nth 5 initialHash 0)
                   (nth 6 initialHash 0) (nth 7 initialHash 0) in
  let H := hashBlocks (length padded / 64) H0 padded in
  wordBytes (ha H) ++ wordBytes (hb H) ++ wordBytes (hc H) ++ wordBytes (hd H)
    ++ wordBytes (he H) ++ wordBytes (hf H) ++ wordBytes (hg H) ++ wordBytes (hh H).

Definition xorBytes (a b : bytes) : bytes :=
  map (fun p => Z.lxor (fst p) (snd p)) (combine a b).

Definition hmacSha256 (key msg : bytes) : bytes :=
  let k := if (64 <? length key)%nat then sha256 key else key in
  let k := k ++ repeat 0 (64 - length k) in
  sha256 (map (Z.lxor 0x5c) k ++ sha256 (map (Z.lxor 0x36) k ++ msg)).

(** [U_1 xor ... xor U_c]; [u] is the latest [U_j] and [acc] the running xor. *)
Fixpoint xorChain (prf : bytes -> bytes) (n : nat) (u acc : bytes) : bytes :=
  match n with
  | O => acc
  | S n' => let u' := prf u in xorChain prf n' u' (xorBytes acc u')
  end.

Definition pbkdf2Block (password salt : bytes) (iterations i : nat) : bytes :=
  let u1 := hmacSha256 password (salt ++ wordBytes (Z.of_nat i)) in
  xorChain (hmacSha256 password) (iterations - 1) u1 u1.

Definition pbkdf2HmacSha256 (password salt : bytes) (iterations keylen : nat) : bytes :=
  firstn keylen
    (flat_map (pbkdf2Block password salt iterations) (seq 1 ((keylen + 31) / 32))).

End Crypto.

(** ** URL encoding: [encodeURIComponent] and [URLSearchParams] *)

Module Web.
Import JS.

Definition isAlphaNum (c : code_unit) : bool :=
  isDecimalDigit c || ((65 <=? c) && (c <=? 90)) || ((97 <=? c) && (c <=? 122)).

Definition hexDigit (d : Z) : code_unit :=
  nth (Z.to_nat d) (lit "0123456789ABCDEF") (ch "0").

(** [%XX], upper-case hexadecimal. *)
Definition percentEncode (b : Z) : jsstring :=
  [ch "%"; hexDigit (b / 16); hexDigit (b mod 16)].

(** Characters [encodeURIComponent] leaves alone: letters, digits and
    [- _ . ! ~ * ' ( )]. *)
Definition uriUnescaped (c : code_unit) : bool :=
  isAlphaNum c || existsb (Z.eqb c) (lit "-_.!~*'()").

(** [encodeURIComponent(s)]: every other code point becomes the percent-encoded
    bytes of its UTF-8 form; an unpaired surrogate throws [URIError]. *)
Fixpoint encodeURIComponent (s : jsstring) : result jsstring :=
  match s with
  | [] => Ok []
  | c :: rest =>
      if uriUnescaped c then
        r <- encodeURIComponent rest ;; Ok (c :: r)
      else if isHighSurrogate c then
        match rest with
        | d :: rest' =>
            if isLowSurrogate d then
              r <- encodeURIComponent rest' ;;
              Ok (flat_map percentEncode (utf8CodePoint (surrogatePair c d)) ++ r)
            else Throw URIError
        | [] => Throw URIError
        end
      else if isLowSurrogate c then Throw URIError
      else
        r <- encodeURIComponent rest ;;
        Ok (flat_map percentEncode (utf8CodePoint c) ++ r)
  end.

(** The application/x-www-form-urlencoded byte serializer: a space becomes
    [+]; letters, digits and [* - . _] stay; any other byte is percent-encoded. *)
Definition urlencodedByte (b : Z) : jsstring :=
  if b =? 32 then [ch "+"]
  else if isAlphaNum b || existsb (Z.eqb b) (lit "*-._") then [b]
  else percentEncode b.

Definition urlencoded (s : jsstring) : jsstring :=
  flat_map urlencodedByte (utf8Encode s).

(** [new URLSearchParams(record).toString()]: the record's entries in insertion
    order, each as [name=value], joined by [&]. *)
Fixpoint URLSearchParams_toString (params : list (jsstring * jsstring)) : jsstring :=
  match params with
  | [] => []
  | [(name, value)] => urlencoded name ++ lit "=" ++ urlencoded value
  | (name, value) :: rest =>
      urlencoded name ++ lit "=" ++ urlencoded value ++ lit "&"
        ++ URLSearchParams_toString rest
  end.

End Web.

(** ** The npm package [base32-encode]

    [base32Encode(data, 'RFC4648', { padding })], imported by the command-line
    tool. *)

Module Base32Package.
Import JS.

Definition RFC4648 : jsstring := lit "ABCDEFGHIJKLMNOPQRSTUVWXYZ234567".

(** [alphabet[i]] appended to a string: an index outside the alphabet reads
    [undefined]. *)
Definition charAt (alphabet : jsstring) (i : Z) : jsstring :=
  if i <? 0 then lit "undefined"
  else match nth_error alphabet (Z.to_nat i) with
       | Some c => [c]
       | None => lit "undefined"
       end.

(** [while (bits >= 5) { output += alphabet[(value >>> (bits - 5)) & 31]; bits -= 5 }] *)
Fixpoint drain (fuel : nat) (value bits : Z) (output : jsstring) : Z * jsstring :=
  match fuel with
  | O => (bits, output)
  | S fuel' =>
      if bits >=? 5 then
        drain fuel' value (bits - 5)
              (output ++ charAt RFC4648 (band (shr value (bits - 5)) 31))
      else (bits, output)
  end.

Definition step (st : Z * Z * jsstring) (byte : Z) : Z * Z * jsstring :=
  let '(value, bits, output) := st in
  let value := bor (shl value 8) byte in
  let bits := bits + 8 in
  let '(bits, output) := drain (Z.to_nat bits) value bits output in
  (value, bits, output).

(** [while ((output.length % 8) !== 0) output += '='] *)
Definition padOutput (output : jsstring) : jsstring :=
  output ++ repeat (ch "=") ((8 - length output mod 8) mod 8).

Definition base32Encode (data : bytes) (padding : bool) : jsstring :=
  let '(value, bits, output) := fold_left step data (0, 0, []) in
  let output :=
    if bits >? 0 then output ++ charAt RFC4648 (band (shl value (5 - bits)) 31)
    else output in
  if padding then padOutput output else output.

End Base32Package.

(** ** [entrust-totp.js]: the command-line tool *)

Module EntrustTotp.
Import JS.

(** [input.replace(/-/g, '')] *)
Definition parseCode (input : jsstring) : jsstring := removeAll (ch "-") input.

(** [generateOtpSecret(serial, activationCode, registrationCode, policy = '')];
    an omitted [policy] is the empty string. *)
Definition generateOtpSecret (serial activationCode registrationCode policy : jsstring)
  : result bytes :=
  let cleanSerial := parseCode serial in
  let cleanActivation := parseCode activationCode in
  let cleanRegistration := parseCode registrationCode in
  let activationWithoutCheck := slice cleanActivation 0 (-1) in
  let registrationWithoutCheck := slice cleanRegistration 0 (-1) in
  activationNum <- BigInt activationWithoutCheck ;;
  activationBytes <- NodeBuffer.writeBigUInt64BE (alloc 8) activationNum ;;
  let activationBytes7 := subarrayFrom activationBytes 1 in
  let registrationNum := parseInt registrationWithoutCheck in
  registrationBytes <- NodeBuffer.writeUInt32BE (alloc 4) registrationNum ;;
  let rngBytes := subarray registrationBytes 2 4 in
  let password := activationBytes7 ++ rngBytes in
  let password :=
    match policy with
    | [] => password
    | _ => password ++ utf8Encode policy
    end in
  let salt := utf8Encode cleanSerial in
  let key := Crypto.pbkdf2HmacSha256 password salt 8 16 in
  Ok key.

(** The value of [password] when [generateOtpSecret] reaches the
    key-derivation call: the same statements, stopped there. *)
Definition kdfPassword (activationCode registrationCode policy : jsstring)
  : result bytes :=
  let cleanActivation := parseCode activationCode in
  let cleanRegistration := parseCode registrationCode in
  let activationWithoutCheck := slice cleanActivation 0 (-1) in
  let registrationWithoutCheck := slice cleanRegistration 0 (-1) in
  activationNum <- BigInt activationWithoutCheck ;;
  activationBytes <- NodeBuffer.writeBigUInt64BE (alloc 8) activationNum ;;
  let activationBytes7 := subarrayFrom activationBytes 1 in
  let registrationNum := parseInt registrationWithoutCheck in
  registrationBytes <- NodeBuffer.writeUInt32BE (alloc 4) registrationNum ;;
  let rngBytes := subarray registrationBytes 2 4 in
  let password := activationBytes7 ++ rngBytes in
  let password :=
    match policy with
    | [] => password
    | _ => password ++ utf8Encode policy
    end in
  Ok password.

(** [generateOtpauthUri(issuer, accountName, secretBuffer)] *)
Definition generateOtpauthUri (issuer accountName : jsstring) (secretBuffer : bytes)
  : result jsstring :=
  let secret := Base32Package.base32Encode secretBuffer false in
  label <- Web.encodeURIComponent (issuer ++ lit ":" ++ accountName) ;;
  let params :=
    [ (lit "secret", secret);
      (lit "issuer", issuer);
      (lit "algorithm", lit "SHA256");
      (lit "digits", lit "6");
      (lit "period", lit "30") ] in
  Ok (lit "otpauth://totp/" ++ label ++ lit "?" ++ Web.URLSearchParams_toString params).

(** The environment [main] reads: [process.env] once [config()] has merged the
    [.env] file into it.  [None] is [undefined]. *)
Record environment : Type := mkEnv {
  SERIAL : option jsstring;
  ACTIVATION_CODE : option jsstring;
  REGISTRATION_CODE : option jsstring;
  ACCOUNT_NAME : option jsstring;
  ISSUER : option jsstring
}.

(** [a || b] on values that are strings or [undefined]: the empty string is
    falsy too. *)
Definition orElse (a b : option jsstring) : option jsstring :=
  match a with
  | Some (_ :: _) => a
  | _ => b
  end.

(** [!v] *)
Definition falsy (v : option jsstring) : bool :=
  match v with
  | Some (_ :: _) => false
  | _ => true
  end.

(** What a run of [main] leaves behind: the usage text on stderr and exit
    code 1; the URI on stdout; or the message of a caught exception on stderr
    and exit code 1. *)
Inductive outcome : Type :=
| Usage
| Printed (uri : jsstring)
| Failed (e : js_error).

(** The string a truthy value is. *)
Definition text (v : option jsstring) : jsstring :=
  match v with
  | Some s => s
  | None => []
  end.

(** [main()], with [args = process.argv.slice(2)]. *)
Definition main (args : list jsstring) (env : environment) : outcome :=
  let serial := orElse (nth_error args 0) (SERIAL env) in
  let activationCode := orElse (nth_error args 1) (ACTIVATION_CODE env) in
  let registrationCode := orElse (nth_error args 2) (REGISTRATION_CODE env) in
  let accountName := orElse (nth_error args 3) (ACCOUNT_NAME env) in
  let issuer := orElse (orElse (nth_error args 4) (ISSUER env)) (Some (lit "Entrust")) in
  if falsy serial || falsy activationCode || falsy registrationCode || falsy accountName
  then Usage
  else
    match generateOtpSecret (text serial) (text activationCode) (text registrationCode) []
    with
    | Throw e => Failed e
    | Ok otpSecretBuffer =>
        match generateOtpauthUri (text issuer) (text accountName) otpSecretBuffer with
        | Throw e => Failed e
        | Ok otpauthUri => Printed otpauthUri
        end
    end.

End EntrustTotp.

(** ** [generate-otpauth-uri.js]: the URI encoder with parameters *)

Module GenerateOtpauthUri.
Import JS.

(** [digits] and [period] are the Numbers 6 and 30 by default and strings
    when they come from the command line or the environment. *)
Inductive value : Type :=
| Num (n : Z)
| Str (s : jsstring).

(** Decimal digits of a non-negative integer, least significant first into
    [acc]. *)
Fixpoint decimalDigits (fuel : nat) (n : Z) (acc : jsstring) : jsstring :=
  match fuel with
  | O => acc
  | S fuel' =>
      let acc := (ch "0" + n mod 10) :: acc in
      if n <? 10 then acc else decimalDigits fuel' (n / 10) acc
  end.

(** [Number.prototype.toString()] on an integer (below 1e21 in magnitude). *)
Definition numberToString (n : Z) : jsstring :=
  if n <? 0 then ch "-" :: decimalDigits (S (Z.to_nat (Z.log2 (- n)))) (- n) []
  else decimalDigits (S (Z.to_nat (Z.log2 n))) n [].

Definition toString (v : value) : jsstring :=
  match v with
  | Num n => numberToString n
  | Str s => s
  end.

(** [generateOtpauthUri(issuer, accountName, secretBuffer, algorithm = 'SHA256',
    digits = 6, period = 30)] *)
Definition generateOtpauthUri (issuer accountName : jsstring) (secretBuffer : bytes)
           (algorithm : jsstring) (digits period : value) : result jsstring :=
  let secret := Base32Package.base32Encode secretBuffer false in
  label <- Web.encodeURIComponent (issuer ++ lit ":" ++ accountName) ;;
  let params :=
    [ (lit "secret", secret);
      (lit "issuer", issuer);
      (lit "algorithm", algorithm);
      (lit "digits", toString digits);
      (lit "period", toString period) ] in
  Ok (lit "otpauth://totp/" ++ label ++ lit "?" ++ Web.URLSearchParams_toString params).

Definition parseCode (input : jsstring) : jsstring := removeAll (ch "-") input.

(** [generateOtpSecret(serial, activationCode, registrationCode, policy = '')]
    of this script: the first 16 bytes of the SHA-256 of the three normalised
    codes, one after the other. *)
Definition generateOtpSecret (serial activationCode registrationCode policy : jsstring)
  : bytes :=
  let serialBuf := utf8Encode (parseCode serial) in
  let activationBuf := utf8Encode (parseCode activationCode) in
  let registrationBuf := utf8Encode (parseCode registrationCode) in
  let data := serialBuf ++ activationBuf ++ registrationBuf in
  let hash := Crypto.sha256 data in
  subarray hash 0 16.

End GenerateOtpauthUri.

(** ** The browser variant *)

Module Browser.
Import JS.

Definition parseCode (input : jsstring) : jsstring := removeAll (ch "-") input.

(** [new TextEncoder().encode(str)] *)
Definition stringToUtf8Bytes (str : jsstring) : bytes := utf8Encode str.

(** [for (let i = byteLength - 1; i >= 0; i--) { bytes[i] = Number(num & 0xFFn); num = num >> 8n }];
    [i] counts the iterations left, so the body runs at index [i - 1]. *)
Fixpoint bigIntToBytes_loop (i : nat) (num : Z) (bytes : JS.bytes) : JS.bytes :=
  match i with
  | O => bytes
  | S i' => bigIntToBytes_loop i' (Z.shiftr num 8) (store bytes i' (Z.land num 0xFF))
  end.

Definition bigIntToBytes (num : Z) (byteLength : nat) : bytes :=
  bigIntToBytes_loop byteLength num (alloc byteLength).

(** [uint32ToBytes(num)]; [>>>] first reduces [num] modulo 2^32. *)
Definition uint32ToBytes (num : number) : bytes :=
  let num := integral num in
  let bytes := alloc 4 in
  let bytes := store bytes 0 (band (shr num 24) 0xFF) in
  let bytes := store bytes 1 (band (shr num 16) 0xFF) in
  let bytes := store bytes 2 (band (shr num 8) 0xFF) in
  let bytes := store bytes 3 (band num 0xFF) in
  bytes.

(** [result.set(arr, offset)]: the elements of one Uint8Array copied into
    another. *)
Fixpoint setAt (result arr : bytes) (offset : nat) : bytes :=
  match arr with
  | [] => result
  | x :: arr' =>
      setAt (firstn offset result ++ match skipn offset result with
                                      | [] => []
                                      | _ :: tail => x :: tail
                                      end) arr' (S offset)
  end.

Definition concatBytes (arrays : list bytes) : bytes :=
  let totalLength := fold_left (fun sum arr => (sum + length arr)%nat) arrays O in
  let result := alloc totalLength in
  fst (fold_left (fun ro arr => (setAt (fst ro) arr (snd ro), (snd ro + length arr)%nat))
                 arrays (result, O)).

(** [importKey] and [deriveBits] of WebCrypto; [keyLength * 8] bits are asked
    for. *)
Definition pbkdf2 (password salt : bytes) (iterations keyLength : nat) : bytes :=
  Crypto.pbkdf2HmacSha256 password salt iterations (keyLength * 8 / 8).

(** The promise [generateOtpSecret] returns, as the value it settles to. *)
Definition generateOtpSecret (serial activationCode registrationCode policy : jsstring)
  : result bytes :=
  let cleanSerial := parseCode serial in
  let cleanActivation := parseCode activationCode in
  let cleanRegistration := parseCode registrationCode in
  let activationWithoutCheck := slice cleanActivation 0 (-1) in
  let registrationWithoutCheck := slice cleanRegistration 0 (-1) in
  activationNum <- BigInt activationWithoutCheck ;;
  let activationBytes8 := bigIntToBytes activationNum 8 in
  let activationBytes7 := sliceFrom activationBytes8 1 in
  let registrationNum := parseInt registrationWithoutCheck in
  let registrationBytes := uint32ToBytes registrationNum in
  let rngBytes := slice registrationBytes 2 4 in
  let password := concatBytes [activationBytes7; rngBytes] in
  let password :=
    match policy with
    | [] => password
    | _ => concatBytes [password; stringToUtf8Bytes policy]
    end in
  let salt := stringToUtf8Bytes cleanSerial in
  let key := pbkdf2 password salt 8 16 in
  Ok key.

(** The value of [password] when the key-derivation call is reached. *)
Definition kdfPassword (activationCode registrationCode policy : jsstring)
  : result bytes :=
  let cleanActivation := parseCode activationCode in
  let cleanRegistration := parseCode registrationCode in
  let activationWithoutCheck := slice cleanActivation 0 (-1) in
  let registrationWithoutCheck := slice cleanRegistration 0 (-1) in
  activationNum <- BigInt activationWithoutCheck ;;
  let activationBytes8 := bigIntToBytes activationNum 8 in
  let activationBytes7 := sliceFrom activationBytes8 1 in
  let registrationNum := parseInt registrationWithoutCheck in
  let registrationBytes := uint32ToBytes registrationNum in
  let rngBytes := slice registrationBytes 2 4 in
  let password := concatBytes [activationBytes7; rngBytes] in
  let password :=
    match policy with
    | [] => password
    | _ => concatBytes [password; stringToUtf8Bytes policy]
    end in
  Ok password.

Definition alphabet : jsstring := lit "ABCDEFGHIJKLMNOPQRSTUVWXYZ234567".

Definition charAt (alphabet : jsstring) (i : Z) : jsstring :=
  if i <? 0 then lit "undefined"
  else match nth_error alphabet (Z.to_nat i) with
       | Some c => [c]
       | None => lit "undefined"
       end.

(** [while (bits >= 5) { result += alphabet[(value >>> (bits - 5)) & 31]; bits -= 5 }] *)
Fixpoint drain (fuel : nat) (value bits : Z) (result : jsstring) : Z * jsstring :=
  match fuel with
  | O => (bits, result)
  | S fuel' =>
      if bits >=? 5 then
        drain fuel' value (bits - 5)
              (result ++ charAt alphabet (band (shr value (bits - 5)) 31))
      else (bits, result)
  end.

(** One turn of the [for] loop over [data]. *)
Definition step (st : Z * Z * jsstring) (byte : Z) : Z * Z * jsstring :=
  let '(value, bits, result) := st in
  let value := bor (shl value 8) byte in
  let bits := bits + 8 in
  let '(bits, result) := drain (Z.to_nat bits) value bits result in
  (value, bits, result).

Definition base32Encode (data : bytes) : jsstring :=
  let '(value, bits, result) := fold_left step data (0, 0, []) in
  if bits >? 0 then result ++ charAt alphabet (band (shl value (5 - bits)) 31)
  else result.

Definition generateOtpauthUri (issuer accountName : jsstring) (secretBuffer : bytes)
  : result jsstring :=
  let secret := base32Encode secretBuffer in
  label <- Web.encodeURIComponent (issuer ++ lit ":" ++ accountName) ;;
  let params :=
    [ (lit "secret", secret);
      (lit "issuer", issuer);
      (lit "algorithm", lit "SHA256");
      (lit "digits", lit "6");
      (lit "period", lit "30") ] in
  Ok (lit "otpauth://totp/" ++ label ++ lit "?" ++ Web.URLSearchParams_toString params).

(** The messages [validateInputs] can return. *)
Inductive validation_error : Type :=
| MissingField
| SerialCharset
| ActivationCharset
| RegistrationCharset
| SerialLength
| ActivationLength
| RegistrationLength.

(** [/^[\d-]+$/.test(s)] *)
Definition digitsAndHyphens (s : jsstring) : bool :=
  match s with
  | [] => false
  | _ => forallb (fun c => isDecimalDigit c || (c =? ch "-")) s
  end.

Definition isEmpty (s : jsstring) : bool :=
  match s with
  | [] => true
  | _ => false
  end.

(** [validateInputs(inputs)]: [None] is the [null] of an accepted form. *)
Definition validateInputs (serial activationCode registrationCode accountName : jsstring)
  : option validation_error :=
  if isEmpty serial || isEmpty activationCode || isEmpty registrationCode
     || isEmpty accountName then Some MissingField
  else if negb (digitsAndHyphens serial) then Some SerialCharset
  else if negb (digitsAndHyphens activationCode) then Some ActivationCharset
  else if negb (digitsAndHyphens registrationCode) then Some RegistrationCharset
  else
    let cleanSerial := parseCode serial in
    let cleanActivation := parseCode activationCode in
    let cleanRegistration := parseCode registrationCode in
    if (length cleanSerial <? 5)%nat || (20 <? length cleanSerial)%nat
    then Some SerialLength
    else if (length cleanActivation <? 10)%nat || (20 <? length cleanActivation)%nat
    then Some ActivationLength
    else if (length cleanRegistration <? 5)%nat || (15 <? length cleanRegistration)%nat
    then Some RegistrationLength
    else None.

(** What [handleFormSubmit] shows: the message of a failed validation
    ([showError(validationError)]), the URI ([showResult]), or the message of
    an exception caught while generating. *)
Inductive shown : Type :=
| ValidationError (e : validation_error)
| Result (uri : jsstring)
| GenerationError (e : js_error).

(** [handleFormSubmit(event)], as a function of the five form fields. *)
Definition handleFormSubmit (serial activationCode registrationCode accountName
                             issuer : jsstring) : shown :=
  let serial := trim serial in
  let activationCode := trim activationCode in
  let registrationCode := trim registrationCode in
  let accountName := trim accountName in
  let issuer := match trim issuer with [] => lit "Entrust" | i => i end in
  match validateInputs serial activationCode registrationCode accountName with
  | Some validationError => ValidationError validationError
  | None =>
      match generateOtpSecret serial activationCode registrationCode [] with
      | Throw e => GenerationError e
      | Ok otpSecret =>
          match generateOtpauthUri issuer accountName otpSecret with
          | Throw e => GenerationError e
          | Ok otpauthUri => Result otpauthUri
          end
      end
  end.

End Browser.

(** ** The specification's reading of the derivation

    Section 4.2 of the specification, in its own words, for comparison with
    the programs. *)

Module Spec.
Import JS.

Definition isDigitOrHyphen (c : code_unit) : bool := isDecimalDigit c || (c =? ch "-").

(** "removing all hyphen characters and preserving digit order" *)
Definition normalize (raw : jsstring) : jsstring :=
  filter (fun c => negb (c =? ch "-")) raw.

(** "Drop the last character of the normalized code (check digit)" *)
Definition residue (code : jsstring) : jsstring := removelast (normalize code).

(** "Parse the remaining digits as an unsigned decimal integer" *)
Fixpoint decimalFrom (acc : Z) (digits : jsstring) : Z :=
  match digits with
  | [] => acc
  | d :: rest => decimalFrom (10 * acc + (d - 48)) rest
  end.

Definition decimal (digits : jsstring) : Z := decimalFrom 0 digits.

(** "encode as [n] bytes big-endian" *)
Fixpoint bigEndian (n : nat) (v : Z) : bytes :=
  match n with
  | O => []
  | S n' => bigEndian n' (v / 256) ++ [v mod 256]
  end.

(** "take the low-order 7 bytes (drop the most-significant byte)" *)
Definition activationBytes7 (a : Z) : bytes := skipn 1 (bigEndian 8 a).

(** "Take the low-order 2 bytes (bytes at offset 2-3)" *)
Definition rngBytes (r : Z) : bytes := firstn 2 (skipn 2 (bigEndian 4 r)).

(** "if policy is non-empty, append its UTF-8 byte representation unmodified" *)
Definition policyBytes (policy : jsstring) : bytes :=
  match policy with
  | [] => []
  | _ => utf8Encode policy
  end.

Definition password (a r : Z) (policy : jsstring) : bytes :=
  activationBytes7 a ++ rngBytes r ++ policyBytes policy.

(** "salt = UTF-8 bytes of the normalized serial" *)
Definition salt (serial : jsstring) : bytes := utf8Encode (normalize serial).

(** Characters of an encoded path segment: unreserved characters and the
    percent sign of an escape; no [:], [/], [?], [#], [&] or [=]. *)
Definition isSegmentChar (c : code_unit) : bool := Web.uriUnescaped c || (c =? ch "%").

(** The Base32 alphabet of RFC 4648: [A-Z] and [2-7]. *)
Definition isBase32Char (c : code_unit) : bool :=
  ((65 <=? c) && (c <=? 90)) || ((50 <=? c) && (c <=? 55)).

(** The number a byte sequence writes in base 256, most significant first. *)
Definition fromBigEndian (bs : bytes) : Z :=
  fold_left (fun acc b => acc * 256 + b) bs 0.

(** Place of a character in the Base32 alphabet: [A-Z] are 0-25, [2-7] are
    26-31. *)
Definition base32Index (c : code_unit) : Z :=
  if (65 <=? c) && (c <=? 90) then c - 65 else c - 24.

(** The number a Base32 text writes in base 32, most significant first. *)
Definition base32Value (s : jsstring) : Z :=
  fold_left (fun acc c => acc * 32 + base32Index c) s 0.


Definition isByte (b : Z) : bool := (0 <=? b) && (b <? 256).

End Spec.

(** A 16-byte secret to run the encoder on: the one derived in the
    specification's end-to-end scenario. *)
Definition sampleSecret : JS.bytes :=
  [0x8a; 0x7c; 0xe0; 0xb7; 0xb0; 0xcb; 0xaf; 0xc3; 0x77; 0x64; 0x24; 0x00; 0x81; 0xd6;
   0x3a; 0x40].

(** * Properties *)

Import JS.

(** ** Integer conversions and bit operations *)

Lemma land_ones8 x : Z.land x 255 = x mod 256.
Proof. change 255 with (Z.ones 8). now rewrite Z.land_ones by lia. Qed.

Lemma land_ones32 x : Z.land x 0xffffffff = x mod 2 ^ 32.
Proof. change 0xffffffff with (Z.ones 32). now rewrite Z.land_ones by lia. Qed.

Lemma land_ones5 x : Z.land x 31 = x mod 32.
Proof. change 31 with (Z.ones 5). now rewrite Z.land_ones by lia. Qed.

Lemma ToInt32_small x : - 2 ^ 31 <= x < 2 ^ 31 -> ToInt32 x = x.
Proof. intros H. unfold ToInt32. rewrite Z.mod_small; lia. Qed.

Lemma ToInt32_cong x : ToInt32 x mod 2 ^ 32 = x mod 2 ^ 32.
Proof.
  unfold ToInt32.
  rewrite Zminus_mod, Z.mod_mod, <- Zminus_mod by lia.
  f_equal. lia.
Qed.

(** Dividing by 256 keeps a congruence, eight bits narrower. *)
Lemma div256_cong m x y :
  0 <= m -> x mod 2 ^ (m + 8) = y mod 2 ^ (m + 8) ->
  (x / 256) mod 2 ^ m = (y / 256) mod 2 ^ m.
Proof.
  intros Hm H.
  rewrite Z.pow_add_r in H by lia. change (2 ^ 8) with 256 in H.
  assert (Hp : 0 < 2 ^ m) by (apply Z.pow_pos_nonneg; lia).
  rewrite (Z.mul_comm (2 ^ m)) in H.
  rewrite !Z.rem_mul_r in H by lia.
  assert (Hx := Z.mod_pos_bound x 256 ltac:(lia)).
  assert (Hy := Z.mod_pos_bound y 256 ltac:(lia)).
  assert (Hx' := Z.mod_pos_bound (x / 256) (2 ^ m) Hp).
  assert (Hy' := Z.mod_pos_bound (y / 256) (2 ^ m) Hp).
  nia.
Qed.

Lemma mod_cong_weaken m n x y :
  0 <= m <= n -> x mod 2 ^ n = y mod 2 ^ n -> x mod 2 ^ m = y mod 2 ^ m.
Proof.
  intros Hmn H.
  assert (Hd : (2 ^ m | 2 ^ n)).
  { exists (2 ^ (n - m)). rewrite <- Z.pow_add_r by lia. f_equal. lia. }
  rewrite <- (Z.mod_mod_divide x _ _ Hd), H.
  now apply Z.mod_mod_divide.
Qed.

(** [a >> 8] after [m + 8] known low bits leaves [m] known low bits. *)
Lemma sar8_cong m a x :
  0 <= m <= 24 -> a mod 2 ^ (m + 8) = x mod 2 ^ (m + 8) ->
  sar a 8 mod 2 ^ m = (x / 256) mod 2 ^ m.
Proof.
  intros Hm H. unfold sar.
  change (ToUint32 8 mod 32) with 8.
  rewrite Z.shiftr_div_pow2 by lia. change (2 ^ 8) with 256.
  apply div256_cong; [lia|].
  rewrite <- H. apply (mod_cong_weaken (m + 8) 32); [lia|]. apply ToInt32_cong.
Qed.

(** ** Typed-array stores *)

Lemma store_length a i v : length (store a i v) = length a.
Proof.
  revert i; induction a as [|x a IH]; intros [|i]; simpl; auto.
Qed.

Lemma skipn_store a i v :
  (i < length a)%nat -> skipn i (store a i v) = ToUint8 v :: skipn (S i) a.
Proof.
  revert i; induction a as [|x a IH]; intros [|i] H; simpl in *; try lia; auto.
  apply IH. lia.
Qed.

Lemma firstn_store a i v : firstn i (store a i v) = firstn i a.
Proof.
  revert i; induction a as [|x a IH]; intros [|i]; simpl; auto.
  now rewrite IH.
Qed.

(** ** Big-endian packing *)

Lemma bigEndian_length n v : length (Spec.bigEndian n v) = n.
Proof.
  revert v; induction n as [|n IH]; intros v; simpl; auto.
  rewrite length_app, IH. simpl. lia.
Qed.

(** The loop of [bigIntToBytes] fills the first [i] cells with the big-endian
    bytes of [num] and leaves the others. *)
Lemma bigIntToBytes_loop_spec i num arr :
  (i <= length arr)%nat ->
  Browser.bigIntToBytes_loop i num arr = Spec.bigEndian i num ++ skipn i arr.
Proof.
  revert num arr; induction i as [|i IH]; intros num arr H; simpl; auto.
  rewrite IH by (rewrite store_length; lia).
  rewrite skipn_store by lia.
  rewrite <- app_assoc. simpl.
  rewrite Z.shiftr_div_pow2 by lia. change (2 ^ 8) with 256.
  do 3 f_equal.
  rewrite land_ones8. unfold ToUint8. change (2 ^ 8) with 256.
  apply Z.mod_mod. lia.
Qed.

Lemma bigIntToBytes_spec num n : Browser.bigIntToBytes num n = Spec.bigEndian n num.
Proof.
  unfold Browser.bigIntToBytes, alloc.
  rewrite bigIntToBytes_loop_spec by (rewrite repeat_length; lia).
  rewrite skipn_all2 by (rewrite repeat_length; lia).
  apply app_nil_r.
Qed.

(** The eight bytes of the big-endian form, read off the value. *)
Lemma bigEndian_8 v :
  Spec.bigEndian 8 v =
  [ (v / 2 ^ 56) mod 256; (v / 2 ^ 48) mod 256; (v / 2 ^ 40) mod 256;
    (v / 2 ^ 32) mod 256; (v / 2 ^ 24) mod 256; (v / 2 ^ 16) mod 256;
    (v / 2 ^ 8) mod 256; v mod 256 ].
Proof.
  cbn [Spec.bigEndian app].
  rewrite !Z.div_div by lia.
  reflexivity.
Qed.

Lemma bigEndian_4 v :
  Spec.bigEndian 4 v =
  [ (v / 2 ^ 24) mod 256; (v / 2 ^ 16) mod 256; (v / 2 ^ 8) mod 256; v mod 256 ].
Proof.
  cbn [Spec.bigEndian app].
  rewrite !Z.div_div by lia.
  reflexivity.
Qed.

Lemma shr8_cong m a x :
  0 <= m <= 24 -> a mod 2 ^ (m + 8) = x mod 2 ^ (m + 8) ->
  shr a 8 mod 2 ^ m = (x / 256) mod 2 ^ m.
Proof.
  intros Hm H. unfold shr.
  change (ToUint32 8 mod 32) with 8.
  rewrite Z.shiftr_div_pow2 by lia. change (2 ^ 8) with 256.
  apply div256_cong; [lia|].
  rewrite <- H. apply (mod_cong_weaken (m + 8) 32); [lia|].
  unfold ToUint32. apply Z.mod_mod. lia.
Qed.

(** Four successive stores of [w], [w >> 8], [w >> 16], [w >> 24] write the
    four low bytes of any [x] congruent to [w] modulo 2^32. *)
Lemma sar_bytes w x :
  w mod 2 ^ 32 = x mod 2 ^ 32 ->
  ToUint8 w = x mod 256
  /\ ToUint8 (sar w 8) = (x / 2 ^ 8) mod 256
  /\ ToUint8 (sar (sar w 8) 8) = (x / 2 ^ 16) mod 256
  /\ ToUint8 (sar (sar (sar w 8) 8) 8) = (x / 2 ^ 24) mod 256.
Proof.
  intros H0. unfold ToUint8. change 256 with (2 ^ 8).
  assert (H1 := sar8_cong 24 w x ltac:(lia) H0).
  assert (H2 := sar8_cong 16 _ _ ltac:(lia) H1).
  assert (H3 := sar8_cong 8 _ _ ltac:(lia) H2).
  rewrite !Z.div_div in * by lia.
  repeat split.
  - apply (mod_cong_weaken 8 32); [lia | exact H0].
  - apply (mod_cong_weaken 8 24); [lia | exact H1].
  - apply (mod_cong_weaken 8 16); [lia | exact H2].
  - exact H3.
Qed.

Lemma shr_bytes w x :
  w mod 2 ^ 32 = x mod 2 ^ 32 ->
  ToUint8 w = x mod 256
  /\ ToUint8 (shr w 8) = (x / 2 ^ 8) mod 256
  /\ ToUint8 (shr (shr w 8) 8) = (x / 2 ^ 16) mod 256
  /\ ToUint8 (shr (shr (shr w 8) 8) 8) = (x / 2 ^ 24) mod 256.
Proof.
  intros H0. unfold ToUint8. change 256 with (2 ^ 8).
  assert (H1 := shr8_cong 24 w x ltac:(lia) H0).
  assert (H2 := shr8_cong 16 _ _ ltac:(lia) H1).
  assert (H3 := shr8_cong 8 _ _ ltac:(lia) H2).
  rewrite !Z.div_div in * by lia.
  repeat split.
  - apply (mod_cong_weaken 8 32); [lia | exact H0].
  - apply (mod_cong_weaken 8 24); [lia | exact H1].
  - apply (mod_cong_weaken 8 16); [lia | exact H2].
  - exact H3.
Qed.

(** [writeBigUInt64BE] throws exactly outside [0, 2^64) and otherwise writes
    the 8-byte big-endian form. *)
Lemma writeBigUInt64BE_spec v :
  NodeBuffer.writeBigUInt64BE (alloc 8) v =
  if (0 <=? v) && (v <? 2 ^ 64) then Ok (Spec.bigEndian 8 v) else Throw RangeError.
Proof.
  unfold NodeBuffer.writeBigUInt64BE.
  destruct (0 <=? v) eqn:H0; destruct (v <? 2 ^ 64) eqn:H1; simpl andb;
    destruct (v >? 0xffffffffffffffff) eqn:H2; destruct (v <? 0) eqn:H3;
    simpl orb; cbv iota; try reflexivity; try lia.
  f_equal. rewrite bigEndian_8.
  cbn [alloc repeat store].
  destruct (sar_bytes (Z.land v 0xffffffff) v) as (L0 & L1 & L2 & L3).
  { rewrite land_ones32. apply Z.mod_mod. lia. }
  destruct (sar_bytes (Z.land (Z.shiftr v 32) 0xffffffff) (v / 2 ^ 32))
    as (U0 & U1 & U2 & U3).
  { rewrite land_ones32, Z.shiftr_div_pow2 by lia. apply Z.mod_mod. lia. }
  rewrite !Z.div_div in * by lia.
  rewrite L0, L1, L2, L3, U0, U1, U2, U3.
  reflexivity.
Qed.

(** [writeUInt32BE] throws exactly outside [0, 2^32), writes the 4-byte
    big-endian form of a number, and zeros for [NaN]. *)
Lemma writeUInt32BE_spec r :
  NodeBuffer.writeUInt32BE (alloc 4) (Int r) =
  if (0 <=? r) && (r <? 2 ^ 32) then Ok (Spec.bigEndian 4 r) else Throw RangeError.
Proof.
  unfold NodeBuffer.writeUInt32BE, NodeBuffer.outOfRange, integral.
  destruct (0 <=? r) eqn:H0; destruct (r <? 2 ^ 32) eqn:H1; simpl andb;
    destruct (r >? 0xffffffff) eqn:H2; destruct (r <? 0) eqn:H3;
    simpl orb; cbv iota; try reflexivity; try lia.
  f_equal. rewrite bigEndian_4.
  cbn [alloc repeat store].
  destruct (shr_bytes r r eq_refl) as (L0 & L1 & L2 & L3).
  rewrite L0, L1, L2, L3.
  reflexivity.
Qed.

Lemma writeUInt32BE_NaN :
  NodeBuffer.writeUInt32BE (alloc 4) NaN = Ok (Spec.bigEndian 4 0).
Proof. reflexivity. Qed.

Lemma uint32ToBytes_spec r :
  Browser.uint32ToBytes (Int r) = Spec.bigEndian 4 (r mod 2 ^ 32).
Proof.
  unfold Browser.uint32ToBytes, integral. rewrite bigEndian_4.
  cbn [alloc repeat store].
  assert (Hr := Z.mod_pos_bound r (2 ^ 32) ltac:(lia)).
  assert (B : forall k, band k 0xFF = k mod 256).
  { intros k. unfold band.
    rewrite (ToInt32_small 0xFF) by lia.
    change 0xFF with (Z.ones 8). rewrite Z.land_ones by lia.
    change (2 ^ 8) with 256.
    rewrite <- (Z.mod_mod_divide (ToInt32 k) (2 ^ 32) 256), ToInt32_cong
      by (exists (2 ^ 24); reflexivity).
    apply Z.mod_mod_divide. exists (2 ^ 24); reflexivity. }
  assert (S : forall n, 0 <= n < 32 -> shr r n = (r mod 2 ^ 32) / 2 ^ n).
  { intros n Hn. unfold shr, ToUint32.
    rewrite (Z.mod_small n) by lia. rewrite (Z.mod_small n) by lia.
    apply Z.shiftr_div_pow2. lia. }
  rewrite !S by lia.
  rewrite !B.
  rewrite (Z.mod_mod_divide r (2 ^ 32) 256) by (exists (2 ^ 24); reflexivity).
  unfold ToUint8. change (2 ^ 8) with 256.
  rewrite !Z.mod_mod by lia.
  reflexivity.
Qed.

(** ** Strings of digits *)

(** Decides the integer comparisons of a goal from the linear facts at hand. *)
Ltac decide_cmp :=
  repeat match goal with
    | |- context [?a <=? ?b] =>
        first [ rewrite (proj2 (Z.leb_le a b)) by lia
              | rewrite (proj2 (Z.leb_gt a b)) by lia ]
    | |- context [?a <? ?b] =>
        first [ rewrite (proj2 (Z.ltb_lt a b)) by lia
              | rewrite (proj2 (Z.ltb_ge a b)) by lia ]
    | |- context [?a =? ?b] =>
        first [ rewrite (proj2 (Z.eqb_eq a b)) by lia
              | rewrite (proj2 (Z.eqb_neq a b)) by lia ]
    end.

Lemma isDecimalDigit_range c : isDecimalDigit c = true <-> 48 <= c <= 57.
Proof. unfold isDecimalDigit. rewrite andb_true_iff, !Z.leb_le. tauto. Qed.

Lemma digit_not_space c : isDecimalDigit c = true -> isStrWhiteSpaceChar c = false.
Proof.
  rewrite isDecimalDigit_range. intros H.
  unfold isStrWhiteSpaceChar. decide_cmp. reflexivity.
Qed.

Lemma digit_radix10 c : isDecimalDigit c = true -> isRadixDigit 10 c = true.
Proof.
  intros H. unfold isRadixDigit, digitValue. rewrite H.
  apply isDecimalDigit_range in H. apply Z.ltb_lt. lia.
Qed.

Lemma digitValue_digit c : isDecimalDigit c = true -> digitValue c = Some (c - 48).
Proof. intros H. unfold digitValue. now rewrite H. Qed.

Lemma dropWhile_head {A} (p : A -> bool) x l : p x = false -> dropWhile p (x :: l) = x :: l.
Proof. intros H. simpl. now rewrite H. Qed.

Lemma takeWhile_all {A} (p : A -> bool) l : forallb p l = true -> takeWhile p l = l.
Proof.
  induction l as [|x l IH]; simpl; auto.
  rewrite andb_true_iff. intros [Hx Hl]. rewrite Hx. f_equal. auto.
Qed.

(** The longest prefix stops at the first element that fails the test. *)
Lemma takeWhile_app_stop {A} (p : A -> bool) l x r :
  forallb p l = true -> p x = false -> takeWhile p (l ++ x :: r) = l.
Proof.
  intros Hl Hx. induction l as [|y l IH]; simpl in *.
  - now rewrite Hx.
  - apply andb_true_iff in Hl as [Hy Hl]. rewrite Hy. f_equal. auto.
Qed.

Lemma forallb_rev {A} (p : A -> bool) l : forallb p (rev l) = forallb p l.
Proof.
  induction l as [|x l IH]; simpl; auto.
  rewrite forallb_app, IH. simpl. rewrite andb_true_r. apply andb_comm.
Qed.

Lemma trim_digits s : forallb isDecimalDigit s = true -> trim s = s.
Proof.
  intros H. unfold trim, trimStart, trimEnd.
  assert (D : forall l, forallb isDecimalDigit l = true ->
                        dropWhile isStrWhiteSpaceChar l = l).
  { intros [|x l]; simpl; auto. rewrite andb_true_iff. intros [Hx _].
    now rewrite (digit_not_space x Hx). }
  rewrite (D s H), D by (now rewrite forallb_rev).
  apply rev_involutive.
Qed.

(** On decimal digits the runtime's digit value is the specification's. *)
Lemma digitsValue_decimal s :
  forallb isDecimalDigit s = true -> digitsValue 10 s = Spec.decimal s.
Proof.
  unfold digitsValue, Spec.decimal. generalize 0 at 2 3 as acc.
  induction s as [|c s IH]; intros acc H;
    cbn [fold_left Spec.decimalFrom forallb] in *; auto.
  apply andb_true_iff in H as [Hc Hs].
  rewrite digitValue_digit by exact Hc.
  rewrite IH by exact Hs. f_equal. ring.
Qed.

Lemma decimalFrom_nonneg s acc :
  forallb isDecimalDigit s = true -> 0 <= acc -> 0 <= Spec.decimalFrom acc s.
Proof.
  revert acc; induction s as [|c s IH]; intros acc H Ha;
    cbn [Spec.decimalFrom forallb] in *; auto.
  apply andb_true_iff in H as [Hc Hs]. apply isDecimalDigit_range in Hc.
  apply IH; auto. lia.
Qed.

Lemma decimal_nonneg s : forallb isDecimalDigit s = true -> 0 <= Spec.decimal s.
Proof. intros H. apply decimalFrom_nonneg; auto. lia. Qed.

Lemma parseDigits_decimal s :
  forallb isDecimalDigit s = true -> s <> [] -> parseDigits 10 s = Some (Spec.decimal s).
Proof.
  intros H Hne. unfold parseDigits. destruct s as [|c s]; [congruence|].
  assert (R : forallb (isRadixDigit 10) (c :: s) = true).
  { apply forallb_forall. intros x Hx. apply digit_radix10.
    revert x Hx. now apply forallb_forall. }
  rewrite R. now rewrite digitsValue_decimal.
Qed.

(** [BigInt] of a string of decimal digits is its decimal value; the empty
    string is 0. *)
Lemma BigInt_digits s :
  forallb isDecimalDigit s = true -> BigInt s = Ok (Spec.decimal s).
Proof.
  intros H. unfold BigInt, StringToBigInt. rewrite trim_digits by exact H.
  destruct s as [|c rest]; [reflexivity|].
  assert (Hc : 48 <= c <= 57).
  { simpl in H. apply andb_true_iff in H as [Hc _]. now apply isDecimalDigit_range. }
  assert (P : nonDecimalPrefix (c :: rest) = None).
  { unfold nonDecimalPrefix. destruct rest as [|p digits].
    - reflexivity.
    - assert (Hp : 48 <= p <= 57).
      { simpl in H. apply andb_true_iff in H as [_ H].
        apply andb_true_iff in H as [Hp _]. now apply isDecimalDigit_range. }
      cbv [ch N_of_ascii N_of_digits Z.of_N N.add N.mul Pos.add Pos.mul Pos.succ].
      decide_cmp. simpl. now destruct (c =? 48). }
  rewrite P.
  cbv [ch N_of_ascii N_of_digits Z.of_N N.add N.mul Pos.add Pos.mul Pos.succ].
  decide_cmp.
  now rewrite parseDigits_decimal.
Qed.

(** [parseInt] of a string of decimal digits is its decimal value; the empty
    string is [NaN]. *)
Lemma parseInt_digits s :
  forallb isDecimalDigit s = true ->
  parseInt s = match s with [] => NaN | _ => Int (Spec.decimal s) end.
Proof.
  intros H. unfold parseInt.
  destruct s as [|c rest]; [reflexivity|].
  assert (Hc : 48 <= c <= 57).
  { simpl in H. apply andb_true_iff in H as [Hc _]. now apply isDecimalDigit_range. }
  unfold trimStart. rewrite dropWhile_head
    by (apply digit_not_space; now apply isDecimalDigit_range).
  cbv [ch N_of_ascii N_of_digits Z.of_N N.add N.mul Pos.add Pos.mul Pos.succ].
  decide_cmp.
  assert (E : (let '(R, S2) :=
                 match c :: rest with
                 | a :: b :: r =>
                     if (a =? 48) && ((b =? 120) || (b =? 88)) then (16, r)
                     else (10, c :: rest)
                 | _ => (10, c :: rest)
                 end in
               match takeWhile (isRadixDigit R) S2 with
               | [] => NaN
               | d :: ds => Int (1 * digitsValue R (d :: ds))
               end) = Int (Spec.decimal (c :: rest))).
  { assert (X : match c :: rest with
                | a :: b :: r =>
                    if (a =? 48) && ((b =? 120) || (b =? 88)) then (16, r)
                    else (10, c :: rest)
                | _ => (10, c :: rest)
                end = (10, c :: rest)).
    { destruct rest as [|b r]; [reflexivity|].
      assert (Hb : 48 <= b <= 57).
      { simpl in H. apply andb_true_iff in H as [_ H].
        apply andb_true_iff in H as [Hb _]. now apply isDecimalDigit_range. }
      decide_cmp. simpl. now rewrite andb_false_r. }
    rewrite X.
    rewrite takeWhile_all.
    - rewrite digitsValue_decimal by exact H. f_equal. lia.
    - apply forallb_forall. intros x Hx. apply digit_radix10.
      revert x Hx. now apply forallb_forall. }
  exact E.
Qed.

(** ** Normalisation and check-digit removal *)

Lemma slice_drop_last {A} (s : list A) : slice s 0 (-1) = removelast s.
Proof.
  unfold slice. cbn [Z.ltb Z.compare].
  rewrite Z.min_l by lia.
  rewrite removelast_firstn_len. cbn [Z.to_nat skipn].
  f_equal. lia.
Qed.

Lemma residue_digits code :
  forallb Spec.isDigitOrHyphen code = true ->
  forallb isDecimalDigit (Spec.residue code) = true.
Proof.
  intros H. unfold Spec.residue.
  assert (N : forallb isDecimalDigit (Spec.normalize code) = true).
  { unfold Spec.normalize. apply forallb_forall. intros x Hx.
    apply filter_In in Hx as [Hin Hx].
    assert (Hd := proj1 (forallb_forall _ _) H x Hin).
    unfold Spec.isDigitOrHyphen in Hd.
    destruct (x =? ch "-"); [discriminate|]. now rewrite orb_false_r in Hd. }
  rewrite removelast_firstn_len.
  rewrite <- (firstn_skipn (pred (length (Spec.normalize code))) (Spec.normalize code)) in N.
  rewrite forallb_app in N.
  now apply andb_true_iff in N as [N _].
Qed.

(** The two residues as the command-line tool computes them. *)
Lemma cli_residue code :
  slice (EntrustTotp.parseCode code) 0 (-1) = Spec.residue code.
Proof. apply slice_drop_last. Qed.

Lemma browser_residue code :
  slice (Browser.parseCode code) 0 (-1) = Spec.residue code.
Proof. apply slice_drop_last. Qed.

Lemma policy_append (pw : bytes) policy :
  match policy with
  | [] => pw
  | _ => pw ++ utf8Encode policy
  end = pw ++ Spec.policyBytes policy.
Proof. destruct policy; simpl; [now rewrite app_nil_r | reflexivity]. Qed.

Lemma subarray_tail7 v : subarrayFrom (Spec.bigEndian 8 v) 1 = Spec.activationBytes7 v.
Proof. unfold Spec.activationBytes7. rewrite bigEndian_8. reflexivity. Qed.

Lemma subarray_rng r : subarray (Spec.bigEndian 4 r) 2 4 = Spec.rngBytes r.
Proof. unfold Spec.rngBytes. rewrite bigEndian_4. reflexivity. Qed.

(** The registration bytes of the command-line tool on a residue of digits. *)
Lemma cli_registrationBytes s :
  forallb isDecimalDigit s = true ->
  NodeBuffer.writeUInt32BE (alloc 4) (parseInt s) =
  if Spec.decimal s <? 2 ^ 32 then Ok (Spec.bigEndian 4 (Spec.decimal s))
  else Throw RangeError.
Proof.
  intros H. rewrite parseInt_digits by exact H.
  destruct s as [|c s]; [reflexivity|].
  rewrite writeUInt32BE_spec.
  assert (Hn := decimal_nonneg _ H).
  now rewrite (proj2 (Z.leb_le 0 _) Hn).
Qed.

(** What the command-line tool hands to PBKDF2, on codes of digits and
    hyphens: the packing of the specification when both values fit their
    buffers (64 and 32 bits), a [RangeError] otherwise. *)
Lemma cli_kdfPassword_digits act reg policy :
  forallb Spec.isDigitOrHyphen act = true ->
  forallb Spec.isDigitOrHyphen reg = true ->
  EntrustTotp.kdfPassword act reg policy =
  if (Spec.decimal (Spec.residue act) <? 2 ^ 64)
     && (Spec.decimal (Spec.residue reg) <? 2 ^ 32)
  then Ok (Spec.password (Spec.decimal (Spec.residue act))
                         (Spec.decimal (Spec.residue reg)) policy)
  else Throw RangeError.
Proof.
  intros Ha Hr. unfold EntrustTotp.kdfPassword.
  rewrite !cli_residue.
  apply residue_digits in Ha, Hr.
  rewrite BigInt_digits by exact Ha. cbn [bind].
  rewrite writeBigUInt64BE_spec.
  rewrite (proj2 (Z.leb_le 0 _) (decimal_nonneg _ Ha)). cbn [andb].
  destruct (Spec.decimal (Spec.residue act) <? 2 ^ 64); cbn [bind andb]; [|reflexivity].
  rewrite cli_registrationBytes by exact Hr.
  destruct (Spec.decimal (Spec.residue reg) <? 2 ^ 32); cbn [bind]; [|reflexivity].
  rewrite subarray_tail7, subarray_rng, policy_append.
  unfold Spec.password. now rewrite app_assoc.
Qed.

(** [generateOtpSecret] is the key derivation applied to that password. *)
Lemma cli_generateOtpSecret_unfold serial act reg policy :
  EntrustTotp.generateOtpSecret serial act reg policy =
  (password <- EntrustTotp.kdfPassword act reg policy ;;
   Ok (Crypto.pbkdf2HmacSha256 password (Spec.salt serial) 8 16)).
Proof.
  unfold EntrustTotp.generateOtpSecret, EntrustTotp.kdfPassword.
  destruct (BigInt _) as [a|e]; cbn [bind]; [|reflexivity].
  destruct (NodeBuffer.writeBigUInt64BE _ a) as [ab|e]; cbn [bind]; [|reflexivity].
  destruct (NodeBuffer.writeUInt32BE _ _) as [rb|e]; cbn [bind]; reflexivity.
Qed.

Lemma browser_generateOtpSecret_unfold serial act reg policy :
  Browser.generateOtpSecret serial act reg policy =
  (password <- Browser.kdfPassword act reg policy ;;
   Ok (Crypto.pbkdf2HmacSha256 password (Spec.salt serial) 8 16)).
Proof.
  unfold Browser.generateOtpSecret, Browser.kdfPassword.
  destruct (BigInt _) as [a|e]; cbn [bind]; reflexivity.
Qed.

(** ** [concatBytes] *)

Lemma skipn_cons_nth {A} (l : list A) n :
  (n < length l)%nat -> exists x, skipn n l = x :: skipn (S n) l.
Proof.
  revert n; induction l as [|y l IH]; intros [|n] H; simpl in *; try lia.
  - now exists y.
  - apply IH. lia.
Qed.

(** [result.set(arr, offset)] overwrites [length arr] cells from [offset]. *)
Lemma setAt_spec arr : forall result offset,
  (offset + length arr <= length result)%nat ->
  Browser.setAt result arr offset =
  firstn offset result ++ arr ++ skipn (offset + length arr) result.
Proof.
  induction arr as [|x arr IH]; intros result offset H; cbn [Browser.setAt length] in *.
  - rewrite Nat.add_0_r. cbn [app]. symmetry. apply firstn_skipn.
  - destruct (skipn_cons_nth result offset ltac:(lia)) as [y Hy].
    rewrite Hy.
    assert (Hf : length (firstn offset result) = offset)
      by (rewrite length_firstn; lia).
    rewrite IH.
    + replace (S offset) with (length (firstn offset result) + 1)%nat at 1 by lia.
      rewrite firstn_app_2. cbn [firstn].
      replace (S offset + length arr)%nat
        with (length (firstn offset result) + S (length arr))%nat at 1 by lia.
      rewrite skipn_app, skipn_all2 by lia.
      replace (length (firstn offset result) + S (length arr)
               - length (firstn offset result))%nat with (S (length arr)) by lia.
      cbn [app]. rewrite skipn_cons, skipn_skipn.
      replace (length arr + S offset)%nat with (offset + S (length arr))%nat by lia.
      now rewrite <- app_assoc.
    + rewrite length_app, Hf. cbn [length].
      assert (Hl : length (skipn offset result) = (length result - offset)%nat)
        by apply length_skipn.
      rewrite Hy in Hl. cbn [length] in Hl. lia.
Qed.

Lemma totalLength_from (arrays : list bytes) n :
  fold_left (fun sum arr => (sum + length arr)%nat) arrays n =
  (n + length (concat arrays))%nat.
Proof.
  revert n; induction arrays as [|a arrays IH]; intros n; cbn [fold_left concat].
  - simpl. lia.
  - rewrite IH, length_app. lia.
Qed.

Lemma concatBytes_loop (arrays : list bytes) : forall done,
  fold_left (fun ro arr => (Browser.setAt (fst ro) arr (snd ro),
                            (snd ro + length arr)%nat))
            arrays (done ++ alloc (length (concat arrays)), length done) =
  (done ++ concat arrays, (length done + length (concat arrays))%nat).
Proof.
  induction arrays as [|a arrays IH]; intros done; cbn [fold_left concat fst snd].
  - simpl. now rewrite Nat.add_0_r.
  - rewrite setAt_spec by (rewrite !length_app; unfold alloc; rewrite repeat_length; lia).
    rewrite firstn_app, firstn_all, Nat.sub_diag by lia. cbn [firstn]. rewrite app_nil_r.
    rewrite skipn_app, skipn_all2 by lia.
    replace (length done + length a - length done)%nat with (length a) by lia.
    cbn [app]. unfold alloc at 1. rewrite length_app, repeat_app, skipn_app.
    rewrite skipn_all2 by (rewrite repeat_length; lia).
    rewrite repeat_length, Nat.sub_diag. cbn [skipn app].
    rewrite app_assoc.
    replace (length done + length a)%nat with (length (done ++ a))
      by apply length_app.
    fold (alloc (length (concat arrays))).
    rewrite IH. rewrite !length_app, <- app_assoc. f_equal. lia.
Qed.

(** [concatBytes] is concatenation. *)
Lemma concatBytes_spec arrays : Browser.concatBytes arrays = concat arrays.
Proof.
  unfold Browser.concatBytes.
  rewrite totalLength_from. cbn [Nat.add].
  pose proof (concatBytes_loop arrays []) as L. cbn [app length] in L.
  exact (f_equal fst L).
Qed.

(** ** The browser's packing *)

Lemma browser_slice_tail7 v :
  sliceFrom (Spec.bigEndian 8 v) 1 = Spec.activationBytes7 v.
Proof. unfold Spec.activationBytes7. rewrite bigEndian_8. reflexivity. Qed.

Lemma browser_slice_rng r : slice (Spec.bigEndian 4 r) 2 4 = Spec.rngBytes r.
Proof. unfold Spec.rngBytes. rewrite bigEndian_4. reflexivity. Qed.

Lemma browser_registrationBytes s :
  forallb isDecimalDigit s = true ->
  Browser.uint32ToBytes (parseInt s) = Spec.bigEndian 4 (Spec.decimal s mod 2 ^ 32).
Proof.
  intros H. rewrite parseInt_digits by exact H.
  destruct s as [|c s]; [reflexivity|].
  apply uint32ToBytes_spec.
Qed.

(** Only the low 56 bits of the activation value and the low 16 bits of the
    registration value reach the password. *)
Lemma byte_of_mod a m k :
  0 <= k -> k + 8 <= m ->
  (a mod 2 ^ m / 2 ^ k) mod 256 = (a / 2 ^ k) mod 256.
Proof.
  intros Hk Hm.
  rewrite <- !Z.shiftr_div_pow2 by lia.
  change 256 with (2 ^ 8). rewrite <- !Z.land_ones by lia.
  apply Z.bits_inj'. intros n Hn.
  rewrite !Z.land_spec, !Z.shiftr_spec, Z.land_spec by lia.
  destruct (Z.ltb_spec n 8).
  - rewrite (Z.ones_spec_low m) by lia. now rewrite andb_true_r.
  - rewrite (Z.ones_spec_high 8) by lia. now rewrite !andb_false_r.
Qed.

Lemma activationBytes7_mod a :
  Spec.activationBytes7 (a mod 2 ^ 56) = Spec.activationBytes7 a.
Proof.
  unfold Spec.activationBytes7. rewrite !bigEndian_8. cbn [skipn].
  rewrite !(byte_of_mod a 56) by lia.
  replace (a mod 2 ^ 56 mod 256) with (a mod 256); [reflexivity|].
  symmetry. apply Z.mod_mod_divide. exists (2 ^ 48). reflexivity.
Qed.

Lemma rngBytes_mod r : Spec.rngBytes (r mod 2 ^ 32) = Spec.rngBytes r.
Proof.
  unfold Spec.rngBytes. rewrite !bigEndian_4. cbn [skipn firstn].
  rewrite !(byte_of_mod r 32) by lia.
  replace (r mod 2 ^ 32 mod 256) with (r mod 256); [reflexivity|].
  symmetry. apply Z.mod_mod_divide. exists (2 ^ 24). reflexivity.
Qed.

(** What the browser variant hands to PBKDF2 on codes of digits and hyphens:
    it never throws, and wraps where the command-line tool throws.  The
    registration value is kept below 2^53, where the Number [parseInt] returns
    is the integer read. *)
Lemma browser_kdfPassword_digits act reg policy :
  forallb Spec.isDigitOrHyphen act = true ->
  forallb Spec.isDigitOrHyphen reg = true ->
  Spec.decimal (Spec.residue reg) < 2 ^ 53 ->
  Browser.kdfPassword act reg policy =
  Ok (Spec.password (Spec.decimal (Spec.residue act))
                    (Spec.decimal (Spec.residue reg)) policy).
Proof.
  intros Ha Hr _. unfold Browser.kdfPassword.
  rewrite !browser_residue.
  apply residue_digits in Ha, Hr.
  rewrite BigInt_digits by exact Ha. cbn [bind].
  rewrite bigIntToBytes_spec, browser_slice_tail7.
  rewrite browser_registrationBytes by exact Hr.
  rewrite browser_slice_rng, rngBytes_mod.
  f_equal. unfold Spec.password, Browser.stringToUtf8Bytes.
  destruct policy; rewrite !concatBytes_spec; cbn [concat Spec.policyBytes];
    now rewrite ?app_nil_r, <- ?app_assoc.
Qed.

(** ** Base32 *)

Lemma band31_range x : 0 <= band x 31 < 32.
Proof.
  unfold band. rewrite (ToInt32_small 31) by lia.
  rewrite land_ones5. apply Z.mod_pos_bound. lia.
Qed.

(** Every index below 32 reads one character of the alphabet. *)
Lemma charAt_alphabet i :
  0 <= i < 32 -> forallb Spec.isBase32Char (Browser.charAt Browser.alphabet i) = true.
Proof.
  intros H.
  assert (T : forallb (fun n => forallb Spec.isBase32Char
                                  (Browser.charAt Browser.alphabet (Z.of_nat n)))
                      (seq 0 32) = true) by (vm_compute; reflexivity).
  rewrite <- (Z2Nat.id i) by lia.
  apply (proj1 (forallb_forall _ _) T).
  apply in_seq. lia.
Qed.

Lemma drain_alphabet fuel : forall value bits result,
  forallb Spec.isBase32Char result = true ->
  forallb Spec.isBase32Char (snd (Browser.drain fuel value bits result)) = true.
Proof.
  induction fuel as [|fuel IH]; intros value bits result H; cbn [Browser.drain].
  - exact H.
  - destruct (bits >=? 5); [|exact H].
    apply IH. rewrite forallb_app, H. apply charAt_alphabet, band31_range.
Qed.

(** The fuel given to the inner loop lets it run to its exit test. *)
Lemma drain_exit fuel : forall value bits result,
  bits <= Z.of_nat fuel -> fst (Browser.drain fuel value bits result) < 5.
Proof.
  induction fuel as [|fuel IH]; intros value bits result H; cbn [Browser.drain].
  - simpl. lia.
  - destruct (Z.geb_spec bits 5); [|simpl; lia].
    apply IH. lia.
Qed.

Lemma step_alphabet st byte :
  forallb Spec.isBase32Char (snd st) = true ->
  forallb Spec.isBase32Char (snd (Browser.step st byte)) = true.
Proof.
  destruct st as [[value bits] result]. cbn [snd]. intros H.
  unfold Browser.step.
  assert (D := drain_alphabet (Z.to_nat (bits + 8)) (bor (shl value 8) byte)
                              (bits + 8) result H).
  destruct (Browser.drain _ _ _ _). exact D.
Qed.

Lemma fold_step_alphabet data : forall st,
  forallb Spec.isBase32Char (snd st) = true ->
  forallb Spec.isBase32Char (snd (fold_left Browser.step data st)) = true.
Proof.
  induction data as [|b data IH]; intros st H; cbn [fold_left]; auto.
  apply IH, step_alphabet, H.
Qed.

Lemma base32Encode_alphabet data :
  forallb Spec.isBase32Char (Browser.base32Encode data) = true.
Proof.
  unfold Browser.base32Encode.
  assert (F := fold_step_alphabet data (0, 0, []) eq_refl).
  destruct (fold_left Browser.step data (0, 0, [])) as [[value bits] result].
  cbn [snd] in F.
  destruct (bits >? 0); [|exact F].
  rewrite forallb_app, F. apply charAt_alphabet, band31_range.
Qed.

(** The package's encoder without padding runs the loop of the browser's. *)
Lemma package_base32Encode data :
  Base32Package.base32Encode data false = Browser.base32Encode data.
Proof. reflexivity. Qed.

Lemma forallb_not_In {A} (p : A -> bool) l x :
  forallb p l = true -> p x = false -> ~ In x l.
Proof.
  intros H Hx Hin. rewrite (proj1 (forallb_forall _ _) H x Hin) in Hx. discriminate.
Qed.

(** ** URL encoding *)

(** Induction following a scan that consumes one or two code units a step. *)
Lemma two_step_ind (P : jsstring -> Prop) :
  P [] -> (forall c rest, P rest -> P (tl rest) -> P (c :: rest)) -> forall s, P s.
Proof.
  intros H0 HS s.
  assert (H : P s /\ P (tl s)); [|tauto].
  induction s as [|c s [IH1 IH2]]; simpl; auto.
Qed.

Lemma unescaped_ascii c : Web.uriUnescaped c = true -> 33 <= c <= 126.
Proof.
  unfold Web.uriUnescaped, Web.isAlphaNum, isDecimalDigit.
  cbv [lit list_ascii_of_string map existsb ch N_of_ascii N_of_digits Z.of_N
       N.add N.mul Pos.add Pos.mul Pos.succ].
  rewrite !orb_true_iff, !andb_true_iff, !Z.leb_le, !Z.eqb_eq.
  intros H. lia.
Qed.

Lemma hexDigit_unescaped d : Web.uriUnescaped (Web.hexDigit d) = true.
Proof.
  unfold Web.hexDigit.
  assert (T : forallb Web.uriUnescaped (ch "0" :: lit "0123456789ABCDEF") = true)
    by (vm_compute; reflexivity).
  apply (proj1 (forallb_forall _ _) T).
  destruct (nth_in_or_default (Z.to_nat d) (lit "0123456789ABCDEF") (ch "0")) as [H|H].
  - now right.
  - left. now rewrite H.
Qed.

Lemma percentEncode_segment b : forallb Spec.isSegmentChar (Web.percentEncode b) = true.
Proof.
  unfold Web.percentEncode, Spec.isSegmentChar. cbn [forallb].
  rewrite !hexDigit_unescaped. reflexivity.
Qed.

Lemma escape_segment bs :
  forallb Spec.isSegmentChar (flat_map Web.percentEncode bs) = true.
Proof.
  induction bs as [|b bs IH]; cbn [flat_map]; auto.
  now rewrite forallb_app, percentEncode_segment, IH.
Qed.

(** [encodeURIComponent] succeeds on a well-formed string, and its output is
    made of segment characters only. *)
Lemma encodeURIComponent_wellFormed s :
  isWellFormed s = true ->
  exists out, Web.encodeURIComponent s = Ok out
              /\ forallb Spec.isSegmentChar out = true.
Proof.
  induction s as [|c rest IH1 IH2] using two_step_ind; intros W.
  - now exists [].
  - cbn [Web.encodeURIComponent].
    unfold isWellFormed in *. cbn [codePoints] in W.
    destruct (Web.uriUnescaped c) eqn:U.
    + assert (R := unescaped_ascii c U).
      assert (Hh : isHighSurrogate c = false)
        by (unfold isHighSurrogate; decide_cmp; reflexivity).
      assert (Hl : isLowSurrogate c = false)
        by (unfold isLowSurrogate; decide_cmp; reflexivity).
      rewrite Hh, Hl in W. cbn [forallb] in W.
      destruct (IH1 W) as (out & E & S).
      exists (c :: out). rewrite E. cbn [bind forallb].
      split; [reflexivity|].
      unfold Spec.isSegmentChar at 1. now rewrite U, S.
    + destruct (isHighSurrogate c).
      * destruct rest as [|d rest']; [discriminate|].
        destruct (isLowSurrogate d); cbn [forallb] in W; [|discriminate].
        cbn [tl] in IH2. destruct (IH2 W) as (out & E & S).
        exists (flat_map Web.percentEncode (utf8CodePoint (surrogatePair c d)) ++ out).
        rewrite E. cbn [bind]. split; [reflexivity|].
        now rewrite forallb_app, escape_segment, S.
      * destruct (isLowSurrogate c); cbn [forallb] in W; [discriminate|].
        destruct (IH1 W) as (out & E & S).
        exists (flat_map Web.percentEncode (utf8CodePoint c) ++ out).
        rewrite E. cbn [bind]. split; [reflexivity|].
        now rewrite forallb_app, escape_segment, S.
Qed.

(** A well-formed prefix is encoded on its own. *)
Lemma encodeURIComponent_app a : forall b,
  isWellFormed a = true ->
  Web.encodeURIComponent (a ++ b) =
  (x <- Web.encodeURIComponent a ;; y <- Web.encodeURIComponent b ;; Ok (x ++ y)).
Proof.
  induction a as [|c rest IH1 IH2] using two_step_ind; intros b W.
  - cbn [app Web.encodeURIComponent bind]. now destruct (Web.encodeURIComponent b).
  - unfold isWellFormed in *. cbn [codePoints] in W.
    cbn [app Web.encodeURIComponent].
    destruct (Web.uriUnescaped c) eqn:U.
    + assert (R := unescaped_ascii c U).
      assert (Hh : isHighSurrogate c = false)
        by (unfold isHighSurrogate; decide_cmp; reflexivity).
      assert (Hl : isLowSurrogate c = false)
        by (unfold isLowSurrogate; decide_cmp; reflexivity).
      rewrite Hh, Hl in W. cbn [forallb] in W.
      rewrite (IH1 b W).
      destruct (Web.encodeURIComponent rest); cbn [bind]; [|reflexivity].
      now destruct (Web.encodeURIComponent b).
    + destruct (isHighSurrogate c).
      * destruct rest as [|d rest']; [discriminate|].
        cbn [app].
        destruct (isLowSurrogate d); cbn [forallb] in W; [|discriminate].
        cbn [tl] in IH2. rewrite (IH2 b W).
        destruct (Web.encodeURIComponent rest'); cbn [bind]; [|reflexivity].
        destruct (Web.encodeURIComponent b); cbn [bind]; [|reflexivity].
        now rewrite app_assoc.
      * destruct (isLowSurrogate c); cbn [forallb] in W; [discriminate|].
        rewrite (IH1 b W).
        destruct (Web.encodeURIComponent rest); cbn [bind]; [|reflexivity].
        destruct (Web.encodeURIComponent b); cbn [bind]; [|reflexivity].
        now rewrite app_assoc.
Qed.

(** ASCII text is its own UTF-8 encoding. *)
Lemma utf8Encode_ascii s :
  forallb (fun c => c <? 128) s = true -> utf8Encode s = s.
Proof.
  unfold utf8Encode.
  induction s as [|c s IH]; cbn [forallb codePoints]; auto.
  rewrite andb_true_iff, Z.ltb_lt. intros [Hc Hs].
  assert (Hh : isHighSurrogate c = false)
    by (unfold isHighSurrogate; decide_cmp; reflexivity).
  assert (Hl : isLowSurrogate c = false)
    by (unfold isLowSurrogate; decide_cmp; first [reflexivity | apply andb_false_r]).
  rewrite Hh, Hl. cbn [flat_map]. rewrite (IH Hs).
  unfold utf8CodePoint. now rewrite (proj2 (Z.ltb_lt c 128) Hc).
Qed.

Lemma base32Char_range c : Spec.isBase32Char c = true -> 50 <= c <= 90.
Proof.
  unfold Spec.isBase32Char.
  rewrite !orb_true_iff, !andb_true_iff, !Z.leb_le. lia.
Qed.

(** A Base32 string passes through the form encoder unchanged. *)
Lemma urlencoded_base32 s :
  forallb Spec.isBase32Char s = true -> Web.urlencoded s = s.
Proof.
  intros H. unfold Web.urlencoded.
  rewrite utf8Encode_ascii.
  - induction s as [|c s IH]; cbn [flat_map forallb] in *; auto.
    apply andb_true_iff in H as [Hc Hs]. rewrite (IH Hs).
    assert (R := base32Char_range c Hc).
    unfold Web.urlencodedByte.
    rewrite (proj2 (Z.eqb_neq c 32)) by lia.
    assert (A : Web.isAlphaNum c = true).
    { unfold Web.isAlphaNum, isDecimalDigit. unfold Spec.isBase32Char in Hc.
      rewrite !orb_true_iff, !andb_true_iff, !Z.leb_le in *. lia. }
    now rewrite A.
  - apply forallb_forall. intros c Hc.
    assert (R := base32Char_range c (proj1 (forallb_forall _ _) H c Hc)).
    apply Z.ltb_lt. lia.
Qed.

Lemma segment_no_colon l :
  forallb Spec.isSegmentChar l = true ->
  ~ In (ch ":") l /\ ~ In (ch "/") l /\ ~ In (ch "?") l /\ ~ In (ch "#") l.
Proof.
  intros H. repeat split; apply (forallb_not_In _ _ _ H); reflexivity.
Qed.

(** ** Key length *)

Lemma sha256_length msg : length (Crypto.sha256 msg) = 32%nat.
Proof. unfold Crypto.sha256. cbv zeta. rewrite !length_app. reflexivity. Qed.

Lemma hmacSha256_length key msg : length (Crypto.hmacSha256 key msg) = 32%nat.
Proof. unfold Crypto.hmacSha256. apply sha256_length. Qed.

Lemma xorBytes_length a b :
  length a = 32%nat -> length b = 32%nat -> length (Crypto.xorBytes a b) = 32%nat.
Proof.
  intros Ha Hb. unfold Crypto.xorBytes. rewrite length_map, length_combine. lia.
Qed.

Lemma xorChain_length prf n : forall u acc,
  (forall x, length (prf x) = 32%nat) -> length acc = 32%nat ->
  length (Crypto.xorChain prf n u acc) = 32%nat.
Proof.
  induction n as [|n IH]; intros u acc Hp Ha; cbn [Crypto.xorChain]; auto.
  apply IH; auto. apply xorBytes_length; auto.
Qed.

Lemma pbkdf2Block_length password salt iterations i :
  length (Crypto.pbkdf2Block password salt iterations i) = 32%nat.
Proof.
  unfold Crypto.pbkdf2Block. apply xorChain_length.
  - intros x. apply hmacSha256_length.
  - apply hmacSha256_length.
Qed.

(** The derived secret has 16 bytes. *)
Lemma pbkdf2_16_length password salt iterations :
  length (Crypto.pbkdf2HmacSha256 password salt iterations 16) = 16%nat.
Proof.
  unfold Crypto.pbkdf2HmacSha256.
  change ((16 + 31) / 32)%nat with 1%nat. cbn [seq flat_map].
  rewrite app_nil_r, length_firstn, pbkdf2Block_length. reflexivity.
Qed.

Lemma password_length a r policy :
  length (Spec.password a r policy) = (9 + length (Spec.policyBytes policy))%nat.
Proof.
  unfold Spec.password, Spec.activationBytes7, Spec.rngBytes.
  rewrite bigEndian_8, bigEndian_4. cbn [skipn firstn].
  rewrite !length_app. reflexivity.
Qed.

(** ** Known answers

    The cryptographic model against published test vectors, and the
    end-to-end scenario of the specification. *)

Example sha256_abc :
  Crypto.sha256 (lit "abc") =
  [0xba; 0x78; 0x16; 0xbf; 0x8f; 0x01; 0xcf; 0xea; 0x41; 0x41; 0x40; 0xde; 0x5d; 0xae;
   0x22; 0x23; 0xb0; 0x03; 0x61; 0xa3; 0x96; 0x17; 0x7a; 0x9c; 0xb4; 0x10; 0xff; 0x61;
   0xf2; 0x00; 0x15; 0xad].
Proof. vm_compute. reflexivity. Qed.

Example hmacSha256_rfc4231_case2 :
  Crypto.hmacSha256 (lit "Jefe") (lit "what do ya want for nothing?") =
  [0x5b; 0xdc; 0xc1; 0x46; 0xbf; 0x60; 0x75; 0x4e; 0x6a; 0x04; 0x24; 0x26; 0x08; 0x95;
   0x75; 0xc7; 0x5a; 0x00; 0x3f; 0x08; 0x9d; 0x27; 0x39; 0x83; 0x9d; 0xec; 0x58; 0xb9;
   0x64; 0xec; 0x38; 0x43].
Proof. vm_compute. reflexivity. Qed.

Example pbkdf2_password_salt_2 :
  Crypto.pbkdf2HmacSha256 (lit "password") (lit "salt") 2 32 =
  [0xae; 0x4d; 0x0c; 0x95; 0xaf; 0x6b; 0x46; 0xd3; 0x2d; 0x0a; 0xdf; 0xf9; 0x28; 0xf0;
   0x6d; 0xd0; 0x2a; 0x30; 0x3f; 0x8e; 0xf3; 0xc2; 0x51; 0xdf; 0xd6; 0xe2; 0xd8; 0x5a;
   0x95; 0x47; 0x4c; 0x43].
Proof. vm_compute. reflexivity. Qed.

Example end_to_end_password :
  EntrustTotp.kdfPassword (lit "0000000000001-9") (lit "00001-00000-9") [] =
  Ok [0; 0; 0; 0; 0; 0; 1; 0x86; 0xa0].
Proof. vm_compute. reflexivity. Qed.

Example end_to_end_uri :
  (key <- EntrustTotp.generateOtpSecret (lit "00001-00000") (lit "0000000000001-9")
                                        (lit "00001-00000-9") [] ;;
   EntrustTotp.generateOtpauthUri (lit "Test") (lit "user@example.com") key) =
  Ok (lit "otpauth://totp/Test%3Auser%40example.com?secret=RJ6OBN5QZOX4G53EEQAIDVR2IA&issuer=Test&algorithm=SHA256&digits=6&period=30").
Proof. vm_compute. reflexivity. Qed.

(** * The claims *)

(** ** Valid input

    Codes of digits and hyphens whose values, after hyphen and check-digit
    removal, fit the fields of the specification: 56 bits for the activation
    code, 32 bits for the registration code. *)

Section ValidInput.

Variables serial act reg policy : jsstring.

Hypothesis act_charset : forallb Spec.isDigitOrHyphen act = true.
Hypothesis reg_charset : forallb Spec.isDigitOrHyphen reg = true.
Hypothesis act_range : Spec.decimal (Spec.residue act) < 2 ^ 56.
Hypothesis reg_range : Spec.decimal (Spec.residue reg) < 2 ^ 32.

Lemma cli_kdfPassword_in_range :
  EntrustTotp.kdfPassword act reg policy =
  Ok (Spec.password (Spec.decimal (Spec.residue act))
                    (Spec.decimal (Spec.residue reg)) policy).
Proof.
  rewrite cli_kdfPassword_digits by assumption.
  now rewrite (proj2 (Z.ltb_lt _ _) reg_range), (proj2 (Z.ltb_lt _ (2 ^ 64))) by lia.
Qed.

(** C1.  On codes of digits and hyphens whose activation value (after hyphen
    and check-digit removal) is below 2^56 and whose registration value is
    below 2^32, [generateOtpSecret] returns exactly PBKDF2-HMAC-SHA-256 at 8
    iterations and 16 bytes of the password
    [low 7 bytes of the 8-byte big-endian activation value ++ bytes 2-3 of the
    4-byte big-endian registration value ++ UTF-8 of a non-empty policy], with
    the UTF-8 bytes of the hyphen-stripped serial (its last character kept) as
    salt. *)
Theorem generateOtpSecret_derivation :
  EntrustTotp.generateOtpSecret serial act reg policy =
  Ok (Crypto.pbkdf2HmacSha256
        (Spec.password (Spec.decimal (Spec.residue act))
                       (Spec.decimal (Spec.residue reg)) policy)
        (Spec.salt serial) 8 16).
Proof.
  rewrite cli_generateOtpSecret_unfold, cli_kdfPassword_in_range.
  reflexivity.
Qed.

(** C8.  On valid input the password handed to PBKDF2 has 9 bytes when the
    policy is empty and [9 + length (utf8 policy)] bytes otherwise. *)
Theorem password_width :
  exists password,
    EntrustTotp.kdfPassword act reg policy = Ok password
    /\ EntrustTotp.generateOtpSecret serial act reg policy =
       Ok (Crypto.pbkdf2HmacSha256 password (utf8Encode (EntrustTotp.parseCode serial)) 8 16)
    /\ (policy = [] -> length password = 9%nat)
    /\ (policy <> [] -> length password = (9 + length (utf8Encode policy))%nat).
Proof.
  exists (Spec.password (Spec.decimal (Spec.residue act))
                        (Spec.decimal (Spec.residue reg)) policy).
  split; [exact cli_kdfPassword_in_range|]. split.
  - rewrite cli_generateOtpSecret_unfold, cli_kdfPassword_in_range. reflexivity.
  - rewrite password_length. split.
    + intros ->. reflexivity.
    + intros Hp. destruct policy; [congruence | reflexivity].
Qed.

(** C9.  On codes of digits and hyphens within the ranges (activation value
    below 2^56, registration value below 2^32) the command-line deriver and
    the browser deriver return the same 16-byte secret. *)
Theorem cli_and_browser_agree :
  exists key,
    EntrustTotp.generateOtpSecret serial act reg policy = Ok key
    /\ Browser.generateOtpSecret serial act reg policy = Ok key
    /\ length key = 16%nat.
Proof.
  exists (Crypto.pbkdf2HmacSha256
            (Spec.password (Spec.decimal (Spec.residue act))
                           (Spec.decimal (Spec.residue reg)) policy)
            (Spec.salt serial) 8 16).
  split; [|split].
  - rewrite cli_generateOtpSecret_unfold, cli_kdfPassword_in_range.
    reflexivity.
  - rewrite browser_generateOtpSecret_unfold.
    rewrite browser_kdfPassword_digits by (first [assumption | lia]). reflexivity.
  - apply pbkdf2_16_length.
Qed.

End ValidInput.

Lemma generateOtpSecret_derivation_witness :
  EntrustTotp.generateOtpSecret (lit "00001-00000") (lit "0000000000001-9")
                                (lit "00001-00000-9") (lit "{}") =
  Ok (Crypto.pbkdf2HmacSha256
        (Spec.password (Spec.decimal (Spec.residue (lit "0000000000001-9")))
                       (Spec.decimal (Spec.residue (lit "00001-00000-9"))) (lit "{}"))
        (Spec.salt (lit "00001-00000")) 8 16).
Proof.
  apply generateOtpSecret_derivation; vm_compute; reflexivity.
Defined.

Lemma password_width_witness :
  exists password,
    EntrustTotp.kdfPassword (lit "1234-5678-9012-3456") (lit "98765-43210")
                            (lit "{}") = Ok password
    /\ EntrustTotp.generateOtpSecret (lit "12345-67890") (lit "1234-5678-9012-3456")
                                     (lit "98765-43210") (lit "{}") =
       Ok (Crypto.pbkdf2HmacSha256 password
             (utf8Encode (EntrustTotp.parseCode (lit "12345-67890"))) 8 16)
    /\ (lit "{}" = [] -> length password = 9%nat)
    /\ (lit "{}" <> [] -> length password = (9 + length (utf8Encode (lit "{}")))%nat).
Proof.
  apply password_width; vm_compute; reflexivity.
Defined.

Lemma cli_and_browser_agree_witness :
  exists key,
    EntrustTotp.generateOtpSecret (lit "12345-67890") (lit "1234-5678-9012-3456")
                                  (lit "98765-43210") (lit "{}") = Ok key
    /\ Browser.generateOtpSecret (lit "12345-67890") (lit "1234-5678-9012-3456")
                                 (lit "98765-43210") (lit "{}") = Ok key
    /\ length key = 16%nat.
Proof.
  apply cli_and_browser_agree; vm_compute; reflexivity.
Defined.

(** Outside the ranges the two differ: the browser wraps where the
    command-line tool throws. *)
Example browser_wraps_registration :
  EntrustTotp.generateOtpSecret (lit "12345-67890") (lit "1234-5678-9012-3456")
                                (lit "42949-67296-0") [] = Throw RangeError
  /\ Browser.generateOtpSecret (lit "12345-67890") (lit "1234-5678-9012-3456")
                               (lit "42949-67296-0") [] =
     Browser.generateOtpSecret (lit "12345-67890") (lit "1234-5678-9012-3456")
                               (lit "00") [].
Proof. vm_compute. split; reflexivity. Qed.

(** C2, as amended.  The command-line tool raises a [RangeError] for an
    activation value of 2^64 or more.  A value from 2^56 up to 2^64 raises
    nothing: with a registration value below 2^32 the derivation succeeds,
    and the activation field holds the value reduced modulo 2^56. *)
Theorem activation_range_is_64_bits serial act reg policy :
  forallb Spec.isDigitOrHyphen act = true ->
  forallb Spec.isDigitOrHyphen reg = true ->
  (2 ^ 64 <= Spec.decimal (Spec.residue act) ->
   EntrustTotp.generateOtpSecret serial act reg policy = Throw RangeError)
  /\ (2 ^ 56 <= Spec.decimal (Spec.residue act) < 2 ^ 64 ->
      Spec.decimal (Spec.residue reg) < 2 ^ 32 ->
      EntrustTotp.generateOtpSecret serial act reg policy =
      Ok (Crypto.pbkdf2HmacSha256
            (Spec.password (Spec.decimal (Spec.residue act) mod 2 ^ 56)
                           (Spec.decimal (Spec.residue reg)) policy)
            (Spec.salt serial) 8 16)).
Proof.
  intros Ha Hr.
  rewrite cli_generateOtpSecret_unfold, cli_kdfPassword_digits by assumption.
  split.
  - intros B. now rewrite (proj2 (Z.ltb_ge _ _) B).
  - intros B Br.
    rewrite (proj2 (Z.ltb_lt _ _) Br), (proj2 (Z.ltb_lt _ (2 ^ 64))) by lia.
    cbn [andb bind]. unfold Spec.password. now rewrite activationBytes7_mod.
Qed.

Lemma activation_range_is_64_bits_witness :
  EntrustTotp.generateOtpSecret (lit "12345-67890") (lit "1844-6744-0737-0955-1616-0")
                                (lit "98765-43210") [] = Throw RangeError
  /\ EntrustTotp.generateOtpSecret (lit "12345-67890") (lit "7205-7594-0379-2793-71")
                                   (lit "98765-43210") [] =
     Ok (Crypto.pbkdf2HmacSha256
           (Spec.password
              (Spec.decimal (Spec.residue (lit "7205-7594-0379-2793-71")) mod 2 ^ 56)
              (Spec.decimal (Spec.residue (lit "98765-43210"))) [])
           (Spec.salt (lit "12345-67890")) 8 16).
Proof.
  split.
  - apply (activation_range_is_64_bits (lit "12345-67890")
             (lit "1844-6744-0737-0955-1616-0") (lit "98765-43210") []);
      vm_compute; first [reflexivity | discriminate].
  - apply (activation_range_is_64_bits (lit "12345-67890")
             (lit "7205-7594-0379-2793-71") (lit "98765-43210") []);
      vm_compute; first [reflexivity | discriminate | split; [discriminate | reflexivity]].
Defined.

(** C2, the claim as stated fails: the activation code 7205-7594-0379-2793-60
    has the value 2^56 after check-digit removal, and the command-line tool
    returns a secret for it, the one it returns for the activation value 0. *)
Lemma activation_2_pow_56_accepted :
  Spec.decimal (Spec.residue (lit "7205-7594-0379-2793-60")) = 2 ^ 56
  /\ EntrustTotp.generateOtpSecret (lit "12345-67890") (lit "7205-7594-0379-2793-60")
                                   (lit "98765-43210") [] =
     EntrustTotp.generateOtpSecret (lit "12345-67890") (lit "00")
                                   (lit "98765-43210") []
  /\ EntrustTotp.generateOtpSecret (lit "12345-67890") (lit "7205-7594-0379-2793-60")
                                   (lit "98765-43210") [] =
     Ok [53; 20; 94; 247; 158; 138; 89; 84; 181; 83; 70; 236; 132; 117; 20; 193].
Proof. vm_compute. repeat split; reflexivity. Qed.

(** C3.  A registration code of digits and hyphens whose value, after hyphen
    and check-digit removal, is 2^32 or more makes [generateOtpSecret] throw:
    no secret is returned whatever the activation code is, and the exception
    is a [RangeError] when the activation code is made of digits and hyphens. *)
Theorem registration_out_of_range_throws serial act reg policy :
  forallb Spec.isDigitOrHyphen reg = true ->
  2 ^ 32 <= Spec.decimal (Spec.residue reg) ->
  (exists e, EntrustTotp.generateOtpSecret serial act reg policy = Throw e)
  /\ (forallb Spec.isDigitOrHyphen act = true ->
      EntrustTotp.generateOtpSecret serial act reg policy = Throw RangeError).
Proof.
  intros Hr B. split.
  - rewrite cli_generateOtpSecret_unfold. unfold EntrustTotp.kdfPassword.
    destruct (BigInt _) as [a|e]; cbn [bind]; [|now exists e].
    destruct (NodeBuffer.writeBigUInt64BE _ a) as [ab|e]; cbn [bind]; [|now exists e].
    rewrite cli_residue, cli_registrationBytes by (now apply residue_digits).
    rewrite (proj2 (Z.ltb_ge _ _) B). cbn [bind]. now exists RangeError.
  - intros Ha.
    rewrite cli_generateOtpSecret_unfold, cli_kdfPassword_digits by assumption.
    rewrite (proj2 (Z.ltb_ge _ _) B), andb_false_r. reflexivity.
Qed.

Lemma registration_out_of_range_throws_witness :
  (exists e, EntrustTotp.generateOtpSecret (lit "12345-67890") (lit "1234-5678-9012-3456")
                                           (lit "42949-67296-0") [] = Throw e)
  /\ EntrustTotp.generateOtpSecret (lit "12345-67890") (lit "1234-5678-9012-3456")
                                   (lit "42949-67296-0") [] = Throw RangeError.
Proof.
  assert (Hr : forallb Spec.isDigitOrHyphen (lit "42949-67296-0") = true)
    by (vm_compute; reflexivity).
  assert (B : 2 ^ 32 <= Spec.decimal (Spec.residue (lit "42949-67296-0")))
    by (vm_compute; discriminate).
  destruct (registration_out_of_range_throws (lit "12345-67890")
              (lit "1234-5678-9012-3456") (lit "42949-67296-0") [] Hr B) as [H1 H2].
  split; [exact H1 | apply H2; vm_compute; reflexivity].
Defined.

(** C4, the code at a failing input: the registration code 12a45-67890 keeps a
    letter after hyphen and check-digit removal, yet nothing is thrown;
    [parseInt] reads the prefix 12, and the secret is the one of the
    registration value 12. *)
Theorem registration_prefix_silently_parsed :
  existsb (fun c => negb (isDecimalDigit c)) (Spec.residue (lit "12a45-67890")) = true
  /\ parseInt (Spec.residue (lit "12a45-67890")) = Int 12
  /\ EntrustTotp.generateOtpSecret (lit "12345-67890") (lit "1234-5678-9012-3456")
                                   (lit "12a45-67890") [] =
     EntrustTotp.generateOtpSecret (lit "12345-67890") (lit "1234-5678-9012-3456")
                                   (lit "120") []
  /\ EntrustTotp.generateOtpSecret (lit "12345-67890") (lit "1234-5678-9012-3456")
                                   (lit "12a45-67890") [] =
     Ok (Crypto.pbkdf2HmacSha256 (Spec.password 123456789012345 12 [])
                                 (Spec.salt (lit "12345-67890")) 8 16).
Proof. vm_compute. repeat split; reflexivity. Qed.

(** The activation path, by contrast, throws on the same residue. *)
Example activation_letter_throws :
  EntrustTotp.generateOtpSecret (lit "12345-67890") (lit "12a45-67890")
                                (lit "98765-43210") [] = Throw SyntaxError.
Proof. vm_compute. reflexivity. Qed.

(** ** Check digits *)

Lemma parseCode_snoc code c :
  c <> ch "-" -> EntrustTotp.parseCode (code ++ [c]) = EntrustTotp.parseCode code ++ [c].
Proof.
  intros H. unfold EntrustTotp.parseCode, removeAll.
  rewrite filter_app. cbn [filter].
  now rewrite (proj2 (Z.eqb_neq _ _) H).
Qed.

Lemma cli_residue_snoc code c :
  c <> ch "-" ->
  slice (EntrustTotp.parseCode (code ++ [c])) 0 (-1) = EntrustTotp.parseCode code.
Proof.
  intros H. rewrite parseCode_snoc by exact H.
  rewrite slice_drop_last. apply removelast_last.
Qed.

(** C7, as amended.  Two activation codes that differ only in their final
    character, and two registration codes that differ only in theirs, give
    the same result (the same secret, or the same exception) whenever those
    final characters are not hyphens: the final character, the check digit,
    is dropped unread. *)
Theorem check_digit_irrelevant serial act reg policy a1 a2 r1 r2 :
  a1 <> ch "-" -> a2 <> ch "-" -> r1 <> ch "-" -> r2 <> ch "-" ->
  EntrustTotp.generateOtpSecret serial (act ++ [a1]) (reg ++ [r1]) policy =
  EntrustTotp.generateOtpSecret serial (act ++ [a2]) (reg ++ [r2]) policy.
Proof.
  intros A1 A2 R1 R2.
  rewrite !cli_generateOtpSecret_unfold. unfold EntrustTotp.kdfPassword.
  now rewrite !cli_residue_snoc by assumption.
Qed.

Lemma check_digit_irrelevant_witness :
  EntrustTotp.generateOtpSecret (lit "12345-67890") (lit "1234-5678-9012-345" ++ [ch "6"])
                                (lit "98765-4321" ++ [ch "0"]) [] =
  EntrustTotp.generateOtpSecret (lit "12345-67890") (lit "1234-5678-9012-345" ++ [ch "1"])
                                (lit "98765-4321" ++ [ch "7"]) [].
Proof.
  apply check_digit_irrelevant; vm_compute; discriminate.
Defined.

(** C7, the claim as stated fails: the activation codes 1234-5678-9012-3456
    and 1234-5678-9012-345- differ in their final character only, and their
    secrets differ.  Normalisation removes the final hyphen, so the digit
    before it is the one dropped. *)
Lemma trailing_hyphen_changes_secret :
  Spec.residue (lit "1234-5678-9012-345" ++ [ch "6"]) = lit "123456789012345"
  /\ Spec.residue (lit "1234-5678-9012-345" ++ [ch "-"]) = lit "12345678901234"
  /\ EntrustTotp.generateOtpSecret (lit "12345-67890") (lit "1234-5678-9012-345" ++ [ch "6"])
                                   (lit "98765-43210") [] =
     Ok [213; 127; 125; 160; 195; 160; 22; 165; 245; 86; 78; 187; 89; 137; 53; 72]
  /\ EntrustTotp.generateOtpSecret (lit "12345-67890") (lit "1234-5678-9012-345" ++ [ch "-"])
                                   (lit "98765-43210") [] =
     Ok [194; 113; 94; 51; 126; 128; 67; 81; 55; 222; 148; 32; 212; 58; 58; 135].
Proof. vm_compute. repeat split; reflexivity. Qed.

(** C10.  When the normalised activation code has exactly one character the
    residue is empty, [BigInt] reads it as 0 and nothing is thrown on its
    account: the result is that of the activation value 0, which on a valid
    registration code is the secret derived with seven zero bytes in the
    activation field.  The length bounds live in [validateInputs], which
    rejects the same input. *)
Theorem single_character_activation serial act reg policy accountName :
  length (EntrustTotp.parseCode act) = 1%nat ->
  EntrustTotp.generateOtpSecret serial act reg policy =
  EntrustTotp.generateOtpSecret serial (lit "00") reg policy
  /\ (forallb Spec.isDigitOrHyphen reg = true ->
      Spec.decimal (Spec.residue reg) < 2 ^ 32 ->
      EntrustTotp.generateOtpSecret serial act reg policy =
      Ok (Crypto.pbkdf2HmacSha256
            ([0; 0; 0; 0; 0; 0; 0] ++ Spec.rngBytes (Spec.decimal (Spec.residue reg))
                                   ++ Spec.policyBytes policy)
            (Spec.salt serial) 8 16))
  /\ Browser.validateInputs serial act reg accountName <> None.
Proof.
  intros L.
  assert (R : slice (EntrustTotp.parseCode act) 0 (-1) = []).
  { rewrite slice_drop_last.
    destruct (EntrustTotp.parseCode act) as [|c [|d l]]; simpl in L; try lia.
    reflexivity. }
  assert (E : EntrustTotp.kdfPassword act reg policy =
              EntrustTotp.kdfPassword (lit "00") reg policy).
  { unfold EntrustTotp.kdfPassword. rewrite R. reflexivity. }
  split; [|split].
  - rewrite !cli_generateOtpSecret_unfold. now rewrite E.
  - intros Hr Br.
    rewrite cli_generateOtpSecret_unfold, E.
    rewrite cli_kdfPassword_digits by (first [reflexivity | assumption]).
    rewrite (proj2 (Z.ltb_lt _ _) Br). reflexivity.
  - unfold Browser.validateInputs.
    destruct (_ || _); [discriminate|].
    destruct (negb _); [discriminate|].
    destruct (negb _); [discriminate|].
    destruct (negb _); [discriminate|].
    destruct (_ || _); [discriminate|].
    change (Browser.parseCode act) with (EntrustTotp.parseCode act).
    rewrite L. cbn [Nat.ltb Nat.leb orb]. discriminate.
Qed.

Lemma single_character_activation_witness :
  EntrustTotp.generateOtpSecret (lit "12345-67890") (lit "-7-") (lit "98765-43210") [] =
  EntrustTotp.generateOtpSecret (lit "12345-67890") (lit "00") (lit "98765-43210") []
  /\ EntrustTotp.generateOtpSecret (lit "12345-67890") (lit "-7-") (lit "98765-43210") [] =
     Ok (Crypto.pbkdf2HmacSha256
           ([0; 0; 0; 0; 0; 0; 0]
              ++ Spec.rngBytes (Spec.decimal (Spec.residue (lit "98765-43210")))
              ++ Spec.policyBytes [])
           (Spec.salt (lit "12345-67890")) 8 16)
  /\ Browser.validateInputs (lit "12345-67890") (lit "-7-") (lit "98765-43210")
                            (lit "user@example.com") <> None.
Proof.
  destruct (single_character_activation (lit "12345-67890") (lit "-7-")
              (lit "98765-43210") [] (lit "user@example.com") eq_refl)
    as (H1 & H2 & H3).
  split; [exact H1 | split; [apply H2; vm_compute; reflexivity | exact H3]].
Defined.

(** ** The provisioning URI *)

(** The URI as a function of the encoded label: the query is
    [secret=...&issuer=...&algorithm=SHA256&digits=6&period=30], with the
    Base32 secret unchanged by the form encoder. *)
Lemma generateOtpauthUri_shape issuer accountName secret :
  EntrustTotp.generateOtpauthUri issuer accountName secret =
  (label <- Web.encodeURIComponent (issuer ++ lit ":" ++ accountName) ;;
   Ok (lit "otpauth://totp/" ++ label ++ lit "?secret=" ++ Browser.base32Encode secret
         ++ lit "&issuer=" ++ Web.urlencoded issuer
         ++ lit "&algorithm=SHA256&digits=6&period=30")).
Proof.
  unfold EntrustTotp.generateOtpauthUri.
  destruct (Web.encodeURIComponent _) as [label|e]; cbn [bind]; [|reflexivity].
  cbn [Web.URLSearchParams_toString].
  rewrite package_base32Encode.
  rewrite (urlencoded_base32 _ (base32Encode_alphabet secret)).
  change (Web.urlencoded (lit "secret")) with (lit "secret").
  change (Web.urlencoded (lit "issuer")) with (lit "issuer").
  change (Web.urlencoded (lit "algorithm")) with (lit "algorithm").
  change (Web.urlencoded (lit "SHA256")) with (lit "SHA256").
  change (Web.urlencoded (lit "digits")) with (lit "digits").
  change (Web.urlencoded (lit "6")) with (lit "6").
  change (Web.urlencoded (lit "period")) with (lit "period").
  change (Web.urlencoded (lit "30")) with (lit "30").
  rewrite <- ?app_assoc. reflexivity.
Qed.

Lemma browser_generateOtpauthUri issuer accountName secret :
  Browser.generateOtpauthUri issuer accountName secret =
  EntrustTotp.generateOtpauthUri issuer accountName secret.
Proof. reflexivity. Qed.

(** The loop of [numberToString] is given fuel to reach its last digit, and
    what it writes reads back as the number. *)
Lemma decimalDigits_value fuel : forall n acc,
  0 <= n < 2 ^ Z.of_nat fuel ->
  Spec.decimalFrom 0 (GenerateOtpauthUri.decimalDigits fuel n acc) =
  Spec.decimalFrom n acc.
Proof.
  induction fuel as [|fuel IH]; intros n acc H.
  - cbn [Z.of_nat Z.pow] in H. replace n with 0 by lia. reflexivity.
  - cbn [GenerateOtpauthUri.decimalDigits].
    rewrite Nat2Z.inj_succ, Z.pow_succ_r in H by lia.
    change (ch "0") with 48.
    destruct (Z.ltb_spec n 10).
    + cbn [Spec.decimalFrom]. rewrite Z.mod_small by lia. f_equal. lia.
    + rewrite IH by (split; [apply Z.div_pos; lia | apply Z.div_lt_upper_bound; lia]).
      cbn [Spec.decimalFrom]. f_equal.
      assert (E := Z.div_mod n 10 ltac:(lia)). lia.
Qed.

Lemma numberToString_decimal n :
  0 <= n -> Spec.decimal (GenerateOtpauthUri.numberToString n) = n.
Proof.
  intros H. unfold GenerateOtpauthUri.numberToString, Spec.decimal.
  rewrite (proj2 (Z.ltb_ge n 0)) by lia.
  rewrite decimalDigits_value; [reflexivity|].
  split; [lia|].
  rewrite Nat2Z.inj_succ, Z2Nat.id by apply Z.log2_nonneg.
  destruct (Z.eq_dec n 0) as [->|]; [reflexivity|].
  apply Z.log2_spec. lia.
Qed.

(** With its defaults the parameterised encoder is the fixed one. *)
Lemma generateOtpauthUri_defaults issuer accountName secret :
  GenerateOtpauthUri.generateOtpauthUri issuer accountName secret (lit "SHA256")
    (GenerateOtpauthUri.Num 6) (GenerateOtpauthUri.Num 30) =
  EntrustTotp.generateOtpauthUri issuer accountName secret.
Proof. reflexivity. Qed.

(** C5.  For well-formed [issuer] and [accountName] (no unpaired surrogate)
    and any secret, [generateOtpauthUri] returns [otpauth://totp/], then the
    percent-encoding of [issuer:accountName] as one path segment (the colon
    encoded as [%3A]; no raw [:], [/], [?] or [#] in it), then [?], then the
    parameters [secret], [issuer], [algorithm], [digits], [period] in that
    order, form-encoded, with [SHA256], [6] and [30] as the last three: the
    decimal forms the parameterised encoder renders for its defaults. *)
Theorem otpauth_uri_format issuer accountName secret :
  isWellFormed issuer = true ->
  isWellFormed accountName = true ->
  exists encIssuer encAccount,
    Web.encodeURIComponent issuer = Ok encIssuer
    /\ Web.encodeURIComponent accountName = Ok encAccount
    /\ Web.encodeURIComponent (issuer ++ lit ":" ++ accountName) =
       Ok (encIssuer ++ lit "%3A" ++ encAccount)
    /\ forallb Spec.isSegmentChar (encIssuer ++ lit "%3A" ++ encAccount) = true
    /\ EntrustTotp.generateOtpauthUri issuer accountName secret =
       Ok (lit "otpauth://totp/" ++ (encIssuer ++ lit "%3A" ++ encAccount)
             ++ lit "?"
             ++ lit "secret=" ++ Web.urlencoded (Base32Package.base32Encode secret false)
             ++ lit "&issuer=" ++ Web.urlencoded issuer
             ++ lit "&algorithm=" ++ Web.urlencoded (lit "SHA256")
             ++ lit "&digits=" ++ Web.urlencoded (lit "6")
             ++ lit "&period=" ++ Web.urlencoded (lit "30"))
    /\ GenerateOtpauthUri.generateOtpauthUri issuer accountName secret (lit "SHA256")
         (GenerateOtpauthUri.Num 6) (GenerateOtpauthUri.Num 30) =
       EntrustTotp.generateOtpauthUri issuer accountName secret.
Proof.
  intros Wi Wa.
  destruct (encodeURIComponent_wellFormed issuer Wi) as (ei & Ei & Si).
  destruct (encodeURIComponent_wellFormed accountName Wa) as (ea & Ea & Sa).
  exists ei, ea.
  assert (L : Web.encodeURIComponent (issuer ++ lit ":" ++ accountName) =
              Ok (ei ++ lit "%3A" ++ ea)).
  { rewrite encodeURIComponent_app by exact Wi. rewrite Ei. cbn [bind].
    change (Web.encodeURIComponent (lit ":" ++ accountName))
      with (r <- Web.encodeURIComponent accountName ;; Ok (lit "%3A" ++ r)).
    rewrite Ea. reflexivity. }
  split; [exact Ei|]. split; [exact Ea|]. split; [exact L|]. split; [|split].
  - rewrite !forallb_app, Si, Sa. reflexivity.
  - rewrite generateOtpauthUri_shape, L. cbn [bind].
    rewrite package_base32Encode.
    rewrite (urlencoded_base32 _ (base32Encode_alphabet secret)).
    reflexivity.
  - apply generateOtpauthUri_defaults.
Qed.

Lemma otpauth_uri_format_witness :
  exists encIssuer encAccount,
    Web.encodeURIComponent (lit "My Company") = Ok encIssuer
    /\ Web.encodeURIComponent (lit "user@example.com") = Ok encAccount
    /\ Web.encodeURIComponent (lit "My Company" ++ lit ":" ++ lit "user@example.com") =
       Ok (encIssuer ++ lit "%3A" ++ encAccount)
    /\ forallb Spec.isSegmentChar (encIssuer ++ lit "%3A" ++ encAccount) = true
    /\ EntrustTotp.generateOtpauthUri (lit "My Company") (lit "user@example.com")
                                      sampleSecret =
       Ok (lit "otpauth://totp/" ++ (encIssuer ++ lit "%3A" ++ encAccount)
             ++ lit "?"
             ++ lit "secret="
             ++ Web.urlencoded
                  (Base32Package.base32Encode sampleSecret false)
             ++ lit "&issuer=" ++ Web.urlencoded (lit "My Company")
             ++ lit "&algorithm=" ++ Web.urlencoded (lit "SHA256")
             ++ lit "&digits=" ++ Web.urlencoded (lit "6")
             ++ lit "&period=" ++ Web.urlencoded (lit "30"))
    /\ GenerateOtpauthUri.generateOtpauthUri (lit "My Company") (lit "user@example.com")
         sampleSecret (lit "SHA256")
         (GenerateOtpauthUri.Num 6) (GenerateOtpauthUri.Num 30) =
       EntrustTotp.generateOtpauthUri (lit "My Company") (lit "user@example.com")
                                      sampleSecret.
Proof.
  apply otpauth_uri_format; vm_compute; reflexivity.
Defined.

Example otpauth_uri_text :
  EntrustTotp.generateOtpauthUri (lit "My Company") (lit "user@example.com")
                                 sampleSecret =
  Ok (lit "otpauth://totp/My%20Company%3Auser%40example.com?secret=RJ6OBN5QZOX4G53EEQAIDVR2IA&issuer=My+Company&algorithm=SHA256&digits=6&period=30").
Proof. vm_compute. reflexivity. Qed.

(** An unpaired surrogate in the label is the one failure. *)
Example unpaired_surrogate_throws :
  EntrustTotp.generateOtpauthUri [55357] (lit "user") [] = Throw URIError.
Proof. vm_compute. reflexivity. Qed.

(** C6.  The Base32 text of any byte sequence is made of [A-Z] and [2-7] only
    and so holds no [=]; the package's encoder without padding and the
    browser's encoder produce it alike, and it stands unchanged as the
    [secret] parameter of every URI [generateOtpauthUri] produces. *)
Theorem base32_alphabet_no_padding data :
  forallb Spec.isBase32Char (Browser.base32Encode data) = true
  /\ ~ In (ch "=") (Browser.base32Encode data)
  /\ Base32Package.base32Encode data false = Browser.base32Encode data
  /\ forall issuer accountName,
       EntrustTotp.generateOtpauthUri issuer accountName data =
       (label <- Web.encodeURIComponent (issuer ++ lit ":" ++ accountName) ;;
        Ok (lit "otpauth://totp/" ++ label ++ lit "?secret=" ++ Browser.base32Encode data
              ++ lit "&issuer=" ++ Web.urlencoded issuer
              ++ lit "&algorithm=SHA256&digits=6&period=30")).
Proof.
  assert (A := base32Encode_alphabet data).
  repeat split.
  - exact A.
  - apply (forallb_not_In _ _ _ A). reflexivity.
  - intros issuer accountName. apply generateOtpauthUri_shape.
Qed.

(** * Further properties of the code *)

(** ** Normalisation *)

Lemma parseCode_no_hyphen s : ~ In (ch "-") (EntrustTotp.parseCode s).
Proof.
  unfold EntrustTotp.parseCode, removeAll. intros H.
  apply filter_In in H as [_ H]. now rewrite Z.eqb_refl in H.
Qed.

Lemma parseCode_fixed s : ~ In (ch "-") s -> EntrustTotp.parseCode s = s.
Proof.
  unfold EntrustTotp.parseCode, removeAll.
  induction s as [|x s IH]; intros H; cbn [filter]; auto.
  destruct (Z.eqb_spec x (ch "-")) as [->|Hx].
  - exfalso. apply H. now left.
  - cbn [negb]. f_equal. apply IH. intros Hin. apply H. now right.
Qed.

Lemma parseCode_idempotent s :
  EntrustTotp.parseCode (EntrustTotp.parseCode s) = EntrustTotp.parseCode s.
Proof. apply parseCode_fixed, parseCode_no_hyphen. Qed.


(** ** What the derived secret depends on *)

Lemma cli_generateOtpSecret_normalised serial act reg policy :
  EntrustTotp.generateOtpSecret serial act reg policy =
  EntrustTotp.generateOtpSecret (EntrustTotp.parseCode serial) (EntrustTotp.parseCode act)
                                (EntrustTotp.parseCode reg) policy.
Proof.
  unfold EntrustTotp.generateOtpSecret. now rewrite !parseCode_idempotent.
Qed.

(** X2.  Hyphens only format a code: two calls whose serials, activation
    codes and registration codes have the same text once hyphens are removed
    give the same result, in the command-line tool and in the browser. *)
Theorem hyphen_placement_irrelevant serial act reg serial' act' reg' policy :
  EntrustTotp.parseCode serial = EntrustTotp.parseCode serial' ->
  EntrustTotp.parseCode act = EntrustTotp.parseCode act' ->
  EntrustTotp.parseCode reg = EntrustTotp.parseCode reg' ->
  EntrustTotp.generateOtpSecret serial act reg policy =
  EntrustTotp.generateOtpSecret serial' act' reg' policy
  /\ Browser.generateOtpSecret serial act reg policy =
     Browser.generateOtpSecret serial' act' reg' policy.
Proof.
  intros Hs Ha Hr. split.
  - rewrite (cli_generateOtpSecret_normalised serial),
      (cli_generateOtpSecret_normalised serial'). now rewrite Hs, Ha, Hr.
  - unfold Browser.generateOtpSecret.
    change Browser.parseCode with EntrustTotp.parseCode. now rewrite Hs, Ha, Hr.
Qed.

Lemma hyphen_placement_irrelevant_witness :
  EntrustTotp.generateOtpSecret (lit "12345-67890") (lit "1234-5678-9012-3456")
                                (lit "98765-43210") [] =
  EntrustTotp.generateOtpSecret (lit "1234567890") (lit "12345678-90123456")
                                (lit "9-8-7-6-5-4-3-2-1-0") []
  /\ Browser.generateOtpSecret (lit "12345-67890") (lit "1234-5678-9012-3456")
                               (lit "98765-43210") [] =
     Browser.generateOtpSecret (lit "1234567890") (lit "12345678-90123456")
                               (lit "9-8-7-6-5-4-3-2-1-0") [].
Proof.
  apply hyphen_placement_irrelevant; vm_compute; reflexivity.
Defined.

(** X3.  On codes of digits and hyphens the command-line deriver has one
    failure, the [RangeError] of a buffer writer: it returns a secret, of 16
    bytes, exactly when the activation value is below 2^64 and the
    registration value below 2^32, and throws [RangeError] otherwise. *)
Theorem cli_succeeds_iff_in_buffer_range serial act reg policy :
  forallb Spec.isDigitOrHyphen act = true ->
  forallb Spec.isDigitOrHyphen reg = true ->
  ((exists key, EntrustTotp.generateOtpSecret serial act reg policy = Ok key
                /\ length key = 16%nat)
   <-> Spec.decimal (Spec.residue act) < 2 ^ 64
       /\ Spec.decimal (Spec.residue reg) < 2 ^ 32)
  /\ (EntrustTotp.generateOtpSecret serial act reg policy = Throw RangeError
      <-> 2 ^ 64 <= Spec.decimal (Spec.residue act)
          \/ 2 ^ 32 <= Spec.decimal (Spec.residue reg)).
Proof.
  intros Ha Hr.
  rewrite cli_generateOtpSecret_unfold, cli_kdfPassword_digits by assumption.
  destruct (Z.ltb_spec (Spec.decimal (Spec.residue act)) (2 ^ 64));
    destruct (Z.ltb_spec (Spec.decimal (Spec.residue reg)) (2 ^ 32));
    cbn [andb bind]; (split; split).
  all: try (intros (key & E & _); discriminate).
  all: try (intros E; discriminate).
  all: try (intros _; eexists; split; [reflexivity | apply pbkdf2_16_length]).
  all: try (intros; split; assumption).
  all: try (intros; reflexivity).
  all: try lia.
Qed.

Lemma cli_succeeds_iff_in_buffer_range_witness :
  ((exists key, EntrustTotp.generateOtpSecret (lit "12345-67890")
                  (lit "7205-7594-0379-2793-71") (lit "98765-43210") [] = Ok key
                /\ length key = 16%nat)
   <-> Spec.decimal (Spec.residue (lit "7205-7594-0379-2793-71")) < 2 ^ 64
       /\ Spec.decimal (Spec.residue (lit "98765-43210")) < 2 ^ 32)
  /\ (EntrustTotp.generateOtpSecret (lit "12345-67890")
        (lit "7205-7594-0379-2793-71") (lit "98765-43210") [] = Throw RangeError
      <-> 2 ^ 64 <= Spec.decimal (Spec.residue (lit "7205-7594-0379-2793-71"))
          \/ 2 ^ 32 <= Spec.decimal (Spec.residue (lit "98765-43210"))).
Proof.
  apply cli_succeeds_iff_in_buffer_range; vm_compute; reflexivity.
Defined.

Lemma rngBytes_mod16 r : Spec.rngBytes (r mod 2 ^ 16) = Spec.rngBytes r.
Proof.
  unfold Spec.rngBytes. rewrite !bigEndian_4. cbn [skipn firstn].
  rewrite (byte_of_mod r 16 8) by lia.
  replace (r mod 2 ^ 16 mod 256) with (r mod 256); [reflexivity|].
  symmetry. apply Z.mod_mod_divide. exists (2 ^ 8). reflexivity.
Qed.

(** X4.  Of the two values only the low 56 bits of the activation value and
    the low 16 bits of the registration value reach the secret: codes of
    digits and hyphens whose values fit the buffers (64 and 32 bits) and
    agree on those bits give the same secret. *)
Theorem only_low_bits_reach_the_secret serial act reg act' reg' policy :
  forallb Spec.isDigitOrHyphen act = true ->
  forallb Spec.isDigitOrHyphen reg = true ->
  forallb Spec.isDigitOrHyphen act' = true ->
  forallb Spec.isDigitOrHyphen reg' = true ->
  Spec.decimal (Spec.residue act) < 2 ^ 64 ->
  Spec.decimal (Spec.residue act') < 2 ^ 64 ->
  Spec.decimal (Spec.residue reg) < 2 ^ 32 ->
  Spec.decimal (Spec.residue reg') < 2 ^ 32 ->
  Spec.decimal (Spec.residue act) mod 2 ^ 56 = Spec.decimal (Spec.residue act') mod 2 ^ 56 ->
  Spec.decimal (Spec.residue reg) mod 2 ^ 16 = Spec.decimal (Spec.residue reg') mod 2 ^ 16 ->
  exists key,
    EntrustTotp.generateOtpSecret serial act reg policy = Ok key
    /\ EntrustTotp.generateOtpSecret serial act' reg' policy = Ok key.
Proof.
  intros Ha Hr Ha' Hr' Ba Ba' Br Br' Ea Er.
  rewrite !cli_generateOtpSecret_unfold, !cli_kdfPassword_digits by assumption.
  rewrite (proj2 (Z.ltb_lt _ _) Ba), (proj2 (Z.ltb_lt _ _) Ba'),
    (proj2 (Z.ltb_lt _ _) Br), (proj2 (Z.ltb_lt _ _) Br').
  cbn [andb bind]. eexists. split; [reflexivity|].
  unfold Spec.password.
  rewrite <- (activationBytes7_mod (Spec.decimal (Spec.residue act'))), <- Ea,
    activationBytes7_mod.
  rewrite <- (rngBytes_mod16 (Spec.decimal (Spec.residue reg'))), <- Er, rngBytes_mod16.
  reflexivity.
Qed.

Lemma only_low_bits_reach_the_secret_witness :
  exists key,
    EntrustTotp.generateOtpSecret (lit "12345-67890") (lit "0000-0000-0000-0012-34")
                                  (lit "00000-00077-0") (lit "{}") = Ok key
    /\ EntrustTotp.generateOtpSecret (lit "12345-67890") (lit "7205-7594-0379-2805-94")
                                     (lit "00000-65613-9") (lit "{}") = Ok key.
Proof.
  apply only_low_bits_reach_the_secret; vm_compute; reflexivity.
Defined.

(** ** The browser's byte helpers *)

Lemma fromBigEndian_snoc bs b :
  Spec.fromBigEndian (bs ++ [b]) = Spec.fromBigEndian bs * 256 + b.
Proof. unfold Spec.fromBigEndian. now rewrite fold_left_app. Qed.

Lemma fromBigEndian_bigEndian n : forall v,
  Spec.fromBigEndian (Spec.bigEndian n v) = v mod 2 ^ (8 * Z.of_nat n).
Proof.
  induction n as [|n IH]; intros v.
  - cbn [Spec.bigEndian]. change (2 ^ (8 * Z.of_nat 0)) with 1.
    now rewrite Z.mod_1_r.
  - cbn [Spec.bigEndian]. rewrite fromBigEndian_snoc, IH.
    replace (8 * Z.of_nat (S n)) with (8 + 8 * Z.of_nat n) by lia.
    rewrite Z.pow_add_r by lia. change (2 ^ 8) with 256.
    assert (P : 0 < 2 ^ (8 * Z.of_nat n)) by (apply Z.pow_pos_nonneg; lia).
    rewrite Z.rem_mul_r by lia. lia.
Qed.

Lemma bigEndian_bytes n : forall v, forallb Spec.isByte (Spec.bigEndian n v) = true.
Proof.
  induction n as [|n IH]; intros v; cbn [Spec.bigEndian]; auto.
  rewrite forallb_app, IH. cbn [forallb]. unfold Spec.isByte.
  assert (H := Z.mod_pos_bound v 256 ltac:(lia)).
  rewrite (proj2 (Z.leb_le _ _)), (proj2 (Z.ltb_lt _ _)) by lia. reflexivity.
Qed.

(** X5.  [bigIntToBytes(num, byteLength)] never fails: it returns
    [byteLength] bytes, each in 0..255, that write [num] modulo
    256^byteLength in base 256, most significant byte first.  A value that
    fits is read back unchanged; a larger or negative one wraps. *)
Theorem bigIntToBytes_round_trip num byteLength :
  length (Browser.bigIntToBytes num byteLength) = byteLength
  /\ forallb Spec.isByte (Browser.bigIntToBytes num byteLength) = true
  /\ Spec.fromBigEndian (Browser.bigIntToBytes num byteLength) =
     num mod 2 ^ (8 * Z.of_nat byteLength)
  /\ (0 <= num < 2 ^ (8 * Z.of_nat byteLength) ->
      Spec.fromBigEndian (Browser.bigIntToBytes num byteLength) = num).
Proof.
  rewrite bigIntToBytes_spec.
  split; [apply bigEndian_length|]. split; [apply bigEndian_bytes|].
  split; [apply fromBigEndian_bigEndian|].
  intros H. rewrite fromBigEndian_bigEndian. now apply Z.mod_small.
Qed.

(** X6.  [uint32ToBytes(num)] never fails: it returns 4 bytes, each in
    0..255, that write [num] modulo 2^32 most significant byte first, and
    four zero bytes for [NaN]. *)
Theorem uint32ToBytes_round_trip r :
  length (Browser.uint32ToBytes (Int r)) = 4%nat
  /\ forallb Spec.isByte (Browser.uint32ToBytes (Int r)) = true
  /\ Spec.fromBigEndian (Browser.uint32ToBytes (Int r)) = r mod 2 ^ 32
  /\ Browser.uint32ToBytes NaN = [0; 0; 0; 0].
Proof.
  rewrite uint32ToBytes_spec.
  split; [apply bigEndian_length|]. split; [apply bigEndian_bytes|].
  split; [|reflexivity].
  rewrite (fromBigEndian_bigEndian 4). change (2 ^ (8 * Z.of_nat 4)) with (2 ^ 32).
  apply Z.mod_mod. lia.
Qed.

(** X7.  [concatBytes(...arrays)] returns the bytes of its arguments in
    order; its length is the sum of theirs, and no array and an empty array
    contribute nothing. *)
Theorem concatBytes_is_concatenation arrays a b :
  Browser.concatBytes arrays = concat arrays
  /\ length (Browser.concatBytes arrays) = list_sum (map (@length Z) arrays)
  /\ Browser.concatBytes [a; b] = a ++ b
  /\ Browser.concatBytes [] = []
  /\ Browser.concatBytes (arrays ++ [[]]) = Browser.concatBytes arrays.
Proof.
  rewrite !concatBytes_spec.
  split; [reflexivity|]. split.
  - induction arrays as [|x arrays IH]; cbn [concat map list_sum]; auto.
    rewrite length_app, IH. reflexivity.
  - split; [cbn [concat]; now rewrite app_nil_r|]. split; [reflexivity|].
    rewrite concat_app. cbn [concat]. now rewrite !app_nil_r.
Qed.

(** ** The two derivers *)

(** X8.  Whatever the four strings are, a secret returned by the command-line
    deriver is the secret the browser deriver returns for them: the browser's
    hand-written packing is the [Buffer] packing wherever that one does not
    throw. *)
Theorem browser_refines_cli serial act reg policy key :
  EntrustTotp.generateOtpSecret serial act reg policy = Ok key ->
  Browser.generateOtpSecret serial act reg policy = Ok key.
Proof.
  rewrite cli_generateOtpSecret_unfold, browser_generateOtpSecret_unfold.
  unfold EntrustTotp.kdfPassword, Browser.kdfPassword.
  change Browser.parseCode with EntrustTotp.parseCode.
  destruct (BigInt _) as [a|e]; cbn [bind]; [|discriminate].
  rewrite writeBigUInt64BE_spec, bigIntToBytes_spec.
  destruct ((0 <=? a) && (a <? 2 ^ 64)); cbn [bind]; [|discriminate].
  rewrite subarray_tail7, browser_slice_tail7.
  set (n := parseInt _).
  assert (R : forall rb, NodeBuffer.writeUInt32BE (alloc 4) n = Ok rb ->
                         exists v, rb = Spec.bigEndian 4 v
                                   /\ Browser.uint32ToBytes n = Spec.bigEndian 4 v).
  { destruct n as [|r]; intros rb.
    - rewrite writeUInt32BE_NaN. intros [= <-]. now exists 0.
    - rewrite writeUInt32BE_spec, uint32ToBytes_spec.
      destruct (Z.leb_spec 0 r); destruct (Z.ltb_spec r (2 ^ 32)); cbn [andb];
        try discriminate.
      intros [= <-]. exists r. split; [reflexivity|].
      rewrite (Z.mod_small r (2 ^ 32)); [reflexivity | lia]. }
  destruct (NodeBuffer.writeUInt32BE (alloc 4) n) as [rb|e]; cbn [bind]; [|discriminate].
  destruct (R rb eq_refl) as (v & -> & ->).
  rewrite subarray_rng, browser_slice_rng.
  intros [= <-]. do 2 f_equal.
  destruct policy; rewrite !concatBytes_spec; cbn [concat]; now rewrite ?app_nil_r.
Qed.

Lemma browser_refines_cli_witness :
  Browser.generateOtpSecret (lit "00001-00000") (lit "0000000000001-9")
                            (lit "00001-00000-9") [] =
  Ok [138; 124; 224; 183; 176; 203; 175; 195; 119; 100; 36; 0; 129; 214; 58; 64].
Proof.
  apply browser_refines_cli. vm_compute. reflexivity.
Defined.

(** ** Base32 as a number

    The encoder keeps its pending bits in a Number it shifts with [<<], so the
    high bits wrap at 32 bits; the text it writes is nonetheless the data read
    as one big number, five bits a character. *)

Lemma bits_of_mod a m k w :
  0 <= k -> 0 <= w -> k + w <= m ->
  (a mod 2 ^ m / 2 ^ k) mod 2 ^ w = (a / 2 ^ k) mod 2 ^ w.
Proof.
  intros Hk Hw Hm.
  rewrite <- !Z.shiftr_div_pow2 by lia.
  rewrite <- !Z.land_ones by lia.
  apply Z.bits_inj'. intros n Hn.
  rewrite !Z.land_spec, !Z.shiftr_spec, Z.land_spec by lia.
  destruct (Z.ltb_spec n w).
  - rewrite (Z.ones_spec_low m) by lia. now rewrite andb_true_r.
  - rewrite (Z.ones_spec_high w) by lia. now rewrite !andb_false_r.
Qed.

Lemma band31 x : band x 31 = x mod 32.
Proof.
  unfold band. rewrite (ToInt32_small 31) by lia. rewrite land_ones5.
  change 32 with (2 ^ 5).
  apply (mod_cong_weaken 5 32); [lia | apply ToInt32_cong].
Qed.

Lemma shr_small value n : 0 <= n < 32 -> shr value n = (value mod 2 ^ 32) / 2 ^ n.
Proof.
  intros Hn. unfold shr, ToUint32.
  rewrite (Z.mod_small n (2 ^ 32)) by lia. rewrite (Z.mod_small n 32) by lia.
  apply Z.shiftr_div_pow2. lia.
Qed.

Lemma shl_cong value s :
  0 <= s < 32 -> shl value s mod 2 ^ 32 = (value * 2 ^ s) mod 2 ^ 32.
Proof.
  intros Hs. unfold shl, ToUint32.
  rewrite (Z.mod_small s (2 ^ 32)) by lia. rewrite (Z.mod_small s 32) by lia.
  rewrite ToInt32_cong, Z.shiftl_mul_pow2 by lia.
  rewrite Z.mul_mod, ToInt32_cong, <- Z.mul_mod by lia. reflexivity.
Qed.

(** [x | b] adds a byte below a value whose low eight bits are clear. *)
Lemma lor_low_byte y b : y mod 256 = 0 -> 0 <= b < 256 -> Z.lor y b = y + b.
Proof.
  intros Hy Hb.
  assert (L : Z.land y b = 0).
  { apply Z.bits_inj'. intros n Hn. rewrite Z.land_spec, Z.bits_0.
    destruct (Z.ltb_spec n 8).
    - assert (E := Z.div_mod y 256 ltac:(lia)). rewrite Hy, Z.add_0_r in E.
      rewrite E, Z.mul_comm. change 256 with (2 ^ 8).
      now rewrite Z.mul_pow2_bits_low by lia.
    - rewrite <- (Z.mod_small b (2 ^ 8)) by lia.
      rewrite Z.mod_pow2_bits_high by lia. apply andb_false_r. }
  rewrite <- Z.lxor_lor by exact L. symmetry. now apply Z.add_nocarry_lxor.
Qed.

Lemma bor_shl_byte value b :
  0 <= b < 256 ->
  bor (shl value 8) b mod 2 ^ 32 = (value * 256 + b) mod 2 ^ 32.
Proof.
  intros Hb. unfold bor. rewrite (ToInt32_small b) by lia.
  assert (C : ToInt32 (shl value 8) mod 2 ^ 32 = (value * 256) mod 2 ^ 32).
  { rewrite ToInt32_cong. apply (shl_cong value 8). lia. }
  assert (Z8 : ToInt32 (shl value 8) mod 256 = 0).
  { change 256 with (2 ^ 8).
    rewrite (mod_cong_weaken 8 32 _ (value * 256)) by (lia || exact C).
    change (2 ^ 8) with 256. apply Z.mod_mul. lia. }
  rewrite lor_low_byte by assumption.
  rewrite Z.add_mod, C, <- Z.add_mod by lia. reflexivity.
Qed.

(** Every index below 32 reads the one character that has that place. *)
Lemma charAt_index i :
  0 <= i < 32 ->
  exists c, Browser.charAt Browser.alphabet i = [c] /\ Spec.base32Index c = i.
Proof.
  intros H.
  assert (T : forallb (fun n => match Browser.charAt Browser.alphabet (Z.of_nat n) with
                                | [c] => Spec.base32Index c =? Z.of_nat n
                                | _ => false
                                end) (seq 0 32) = true) by (vm_compute; reflexivity).
  assert (I : In (Z.to_nat i) (seq 0 32)) by (apply in_seq; lia).
  assert (P := proj1 (forallb_forall _ _) T _ I). cbv beta in P.
  rewrite Z2Nat.id in P by lia.
  destruct (Browser.charAt Browser.alphabet i) as [|c [|d l]]; try discriminate.
  exists c. split; [reflexivity | now apply Z.eqb_eq].
Qed.

Lemma base32Value_snoc s c :
  Spec.base32Value (s ++ [c]) = Spec.base32Value s * 32 + Spec.base32Index c.
Proof. unfold Spec.base32Value. now rewrite fold_left_app. Qed.

(** The inner loop: each turn writes the next five bits of [N], of which
    [value] holds the low 32 bits. *)
Lemma drain_value N value fuel : forall bits output,
  0 <= N -> value mod 2 ^ 32 = N mod 2 ^ 32 ->
  0 <= bits <= 12 -> bits <= Z.of_nat fuel ->
  Spec.base32Value output = N / 2 ^ bits ->
  let r := Browser.drain fuel value bits output in
  0 <= fst r < 5
  /\ Z.of_nat (length (snd r)) * 5 + fst r = Z.of_nat (length output) * 5 + bits
  /\ Spec.base32Value (snd r) = N / 2 ^ fst r.
Proof.
  induction fuel as [|fuel IH]; intros bits output HN Hv Hb Hf Ho; cbv zeta.
  - cbn [Browser.drain fst snd]. replace bits with 0 in * by lia.
    repeat split; first [lia | exact Ho].
  - cbn [Browser.drain].
    destruct (Z.geb_spec bits 5) as [H5|H5]; [|cbn [fst snd]; repeat split; (lia || exact Ho)].
    assert (I : band (shr value (bits - 5)) 31 = (N / 2 ^ (bits - 5)) mod 32).
    { rewrite band31, shr_small, Hv by lia. change 32 with (2 ^ 5).
      apply bits_of_mod; lia. }
    assert (R : 0 <= (N / 2 ^ (bits - 5)) mod 32 < 32) by (apply Z.mod_pos_bound; lia).
    rewrite I. destruct (charAt_index _ R) as (c & Ec & Ic). rewrite Ec.
    specialize (IH (bits - 5) (output ++ [c]) HN Hv ltac:(lia) ltac:(lia)).
    cbv zeta in IH. rewrite length_app in IH. cbn [length] in IH.
    destruct IH as (B & L & V).
    + rewrite base32Value_snoc, Ho, Ic.
      replace (2 ^ bits) with (2 ^ (bits - 5) * 32)
        by (change 32 with (2 ^ 5); rewrite <- Z.pow_add_r by lia; f_equal; lia).
      rewrite <- Z.div_div by (try apply Z.pow_pos_nonneg; lia).
      assert (E := Z.div_mod (N / 2 ^ (bits - 5)) 32 ltac:(lia)). lia.
    + repeat split; first [lia | exact V].
Qed.

(** One turn of the outer loop, on a byte. *)
Lemma step_value N k st b :
  0 <= N -> 0 <= b < 256 ->
  (let '(value, bits, output) := st in
   value mod 2 ^ 32 = N mod 2 ^ 32 /\ 0 <= bits < 5
   /\ Z.of_nat (length output) * 5 + bits = 8 * k
   /\ Spec.base32Value output = N / 2 ^ bits) ->
  let '(value, bits, output) := Browser.step st b in
  value mod 2 ^ 32 = (N * 256 + b) mod 2 ^ 32 /\ 0 <= bits < 5
  /\ Z.of_nat (length output) * 5 + bits = 8 * (k + 1)
  /\ Spec.base32Value output = (N * 256 + b) / 2 ^ bits.
Proof.
  destruct st as [[value bits] output]. intros HN Hb (Hv & Hbits & Hl & Ho).
  unfold Browser.step.
  assert (Hv' : bor (shl value 8) b mod 2 ^ 32 = (N * 256 + b) mod 2 ^ 32).
  { rewrite bor_shl_byte by lia.
    rewrite Z.add_mod, Z.mul_mod, Hv, <- Z.mul_mod, <- Z.add_mod by lia. reflexivity. }
  assert (Ho' : Spec.base32Value output = (N * 256 + b) / 2 ^ (bits + 8)).
  { rewrite Ho, Z.pow_add_r by lia. change (2 ^ 8) with 256.
    rewrite (Z.mul_comm (2 ^ bits)), <- Z.div_div by (try apply Z.pow_pos_nonneg; lia).
    f_equal. rewrite Z.div_add_l by lia. rewrite (Z.div_small b) by lia. lia. }
  assert (D := drain_value (N * 256 + b) (bor (shl value 8) b) (Z.to_nat (bits + 8))
                           (bits + 8) output ltac:(lia) Hv' ltac:(lia) ltac:(lia) Ho').
  cbv zeta in D.
  destruct (Browser.drain _ _ _ _) as [bits' output']. cbn [fst snd] in D.
  destruct D as (B & L & V). repeat split; first [lia | assumption].
Qed.

Lemma fold_step_value data : forall N k st,
  0 <= N -> forallb Spec.isByte data = true ->
  (let '(value, bits, output) := st in
   value mod 2 ^ 32 = N mod 2 ^ 32 /\ 0 <= bits < 5
   /\ Z.of_nat (length output) * 5 + bits = 8 * k
   /\ Spec.base32Value output = N / 2 ^ bits) ->
  let N' := fold_left (fun acc b => acc * 256 + b) data N in
  let '(value, bits, output) := fold_left Browser.step data st in
  0 <= N' /\ value mod 2 ^ 32 = N' mod 2 ^ 32 /\ 0 <= bits < 5
  /\ Z.of_nat (length output) * 5 + bits = 8 * (k + Z.of_nat (length data))
  /\ Spec.base32Value output = N' / 2 ^ bits.
Proof.
  induction data as [|b data IH]; intros N k st HN Hd Hst; cbv zeta.
  - cbn [fold_left length]. destruct st as [[value bits] output].
    destruct Hst as (Hv & Hb & Hl & Ho). repeat split; first [lia | assumption].
  - cbn [fold_left forallb length] in *.
    apply andb_true_iff in Hd as [Hb Hd].
    unfold Spec.isByte in Hb. apply andb_true_iff in Hb as [Hb0 Hb1].
    apply Z.leb_le in Hb0. apply Z.ltb_lt in Hb1.
    assert (S := step_value N k st b HN ltac:(lia) Hst).
    specialize (IH (N * 256 + b) (k + 1) (Browser.step st b) ltac:(lia) Hd).
    cbv zeta in IH.
    destruct (Browser.step st b) as [[value' bits'] output'].
    specialize (IH S).
    destruct (fold_left Browser.step data (value', bits', output')) as [[v2 b2] o2].
    destruct IH as (H1 & H2 & H3 & H4 & H5).
    repeat split; first [lia | assumption].
Qed.

(** The text of a byte sequence: its length, and the number it writes. *)
Lemma base32Encode_value data :
  forallb Spec.isByte data = true ->
  let pad := 5 * Z.of_nat (length (Browser.base32Encode data))
             - 8 * Z.of_nat (length data) in
  0 <= pad < 5
  /\ Spec.base32Value (Browser.base32Encode data) = Spec.fromBigEndian data * 2 ^ pad.
Proof.
  intros Hd. cbv zeta. unfold Browser.base32Encode, Spec.fromBigEndian.
  assert (F := fold_step_value data 0 0 (0, 0, []) ltac:(lia) Hd).
  cbv zeta in F. specialize (F ltac:(repeat split; (lia || reflexivity))).
  set (N := fold_left (fun acc b => acc * 256 + b) data 0) in *.
  destruct (fold_left Browser.step data (0, 0, [])) as [[value bits] output].
  destruct F as (HN & Hv & Hb & Hl & Ho).
  destruct (Z.gtb_spec bits 0) as [Hp|Hp].
  - assert (I : band (shl value (5 - bits)) 31 = (N * 2 ^ (5 - bits)) mod 32).
    { rewrite band31. change 32 with (2 ^ 5).
      rewrite (mod_cong_weaken 5 32 _ (value * 2 ^ (5 - bits)))
        by (lia || (apply shl_cong; lia)).
      rewrite (mod_cong_weaken 5 32 (value * 2 ^ (5 - bits)) (N * 2 ^ (5 - bits)));
        [reflexivity | lia |].
      rewrite Z.mul_mod, Hv, <- Z.mul_mod by lia. reflexivity. }
    assert (R : 0 <= (N * 2 ^ (5 - bits)) mod 32 < 32) by (apply Z.mod_pos_bound; lia).
    rewrite I. destruct (charAt_index _ R) as (c & Ec & Ic). rewrite Ec.
    rewrite length_app, base32Value_snoc, Ho, Ic. cbn [length].
    replace (5 * Z.of_nat (length output + 1) - 8 * Z.of_nat (length data))
      with (5 - bits) by lia.
    split; [lia|].
    assert (P : 0 < 2 ^ bits) by (apply Z.pow_pos_nonneg; lia).
    assert (Q : 0 < 2 ^ (5 - bits)) by (apply Z.pow_pos_nonneg; lia).
    assert (E : 2 ^ bits * 2 ^ (5 - bits) = 32)
      by (rewrite <- Z.pow_add_r by lia; replace (bits + (5 - bits)) with 5 by lia;
          reflexivity).
    assert (D := Z.div_mod N (2 ^ bits) ltac:(lia)).
    assert (M := Z.mod_pos_bound N (2 ^ bits) P).
    assert (X : (N * 2 ^ (5 - bits)) mod 32 = (N mod 2 ^ bits) * 2 ^ (5 - bits)).
    { rewrite D at 1. rewrite Z.mul_add_distr_r.
      replace (2 ^ bits * (N / 2 ^ bits) * 2 ^ (5 - bits))
        with ((N / 2 ^ bits) * 32) by (rewrite <- E; ring).
      rewrite Z.add_comm, Z.mod_add by lia. apply Z.mod_small. nia. }
    rewrite X. rewrite D at 3. nia.
  - replace bits with 0 in * by lia.
    replace (5 * Z.of_nat (length output) - 8 * Z.of_nat (length data)) with 0 by lia.
    split; [lia|]. rewrite Ho. change (2 ^ 0) with 1. rewrite Z.div_1_r. lia.
Qed.

(** The same count of characters holds for any array of numbers. *)
Lemma drain_count fuel : forall value bits result,
  0 <= bits -> bits <= Z.of_nat fuel ->
  let r := Browser.drain fuel value bits result in
  0 <= fst r < 5
  /\ Z.of_nat (length (snd r)) * 5 + fst r = Z.of_nat (length result) * 5 + bits.
Proof.
  induction fuel as [|fuel IH]; intros value bits result Hb Hf; cbv zeta;
    cbn [Browser.drain].
  - cbn [fst snd]. lia.
  - destruct (Z.geb_spec bits 5); [|cbn [fst snd]; lia].
    specialize (IH value (bits - 5)
                   (result ++ Browser.charAt Browser.alphabet
                                             (band (shr value (bits - 5)) 31))
                   ltac:(lia) ltac:(lia)).
    cbv zeta in IH. rewrite length_app in IH.
    destruct (charAt_index _ (band31_range (shr value (bits - 5)))) as (c & Ec & _).
    rewrite Ec in *. cbn [length] in IH. lia.
Qed.

Lemma fold_step_count data : forall k st,
  (0 <= snd (fst st) < 5
   /\ Z.of_nat (length (snd st)) * 5 + snd (fst st) = 8 * k) ->
  let st' := fold_left Browser.step data st in
  0 <= snd (fst st') < 5
  /\ Z.of_nat (length (snd st')) * 5 + snd (fst st') = 8 * (k + Z.of_nat (length data)).
Proof.
  induction data as [|b data IH]; intros k st H; cbv zeta; cbn [fold_left length].
  - change (Z.of_nat 0) with 0. rewrite Z.add_0_r. exact H.
  - specialize (IH (k + 1) (Browser.step st b)). cbv zeta in IH.
    destruct st as [[value bits] result]. cbn [fst snd] in H.
    assert (D := drain_count (Z.to_nat (bits + 8)) (bor (shl value 8) b) (bits + 8)
                             result ltac:(lia) ltac:(lia)).
    cbv zeta in D. unfold Browser.step in *.
    destruct (Browser.drain _ _ _ _) as [bits' result']. cbn [fst snd] in *.
    specialize (IH ltac:(lia)). lia.
Qed.

Lemma base32Encode_count data :
  Z.of_nat (length (Browser.base32Encode data)) = (8 * Z.of_nat (length data) + 4) / 5.
Proof.
  unfold Browser.base32Encode.
  assert (F := fold_step_count data 0 (0, 0, []) ltac:(cbn; lia)). cbv zeta in F.
  destruct (fold_left Browser.step data (0, 0, [])) as [[value bits] result].
  cbn [fst snd] in F.
  destruct (Z.gtb_spec bits 0).
  - destruct (charAt_index _ (band31_range (shl value (5 - bits)))) as (c & Ec & _).
    rewrite Ec, length_app. cbn [length].
    apply Z.div_unique with (r := bits - 1); lia.
  - apply Z.div_unique with (r := 4); lia.
Qed.

Lemma bigEndian_fromBigEndian d :
  forallb Spec.isByte d = true ->
  Spec.bigEndian (length d) (Spec.fromBigEndian d) = d.
Proof.
  induction d as [|b d IH] using rev_ind; intros H; [reflexivity|].
  rewrite forallb_app in H. apply andb_true_iff in H as [Hd Hb].
  cbn [forallb] in Hb. rewrite andb_true_r in Hb. unfold Spec.isByte in Hb.
  apply andb_true_iff in Hb as [Hb0 Hb1].
  apply Z.leb_le in Hb0. apply Z.ltb_lt in Hb1.
  rewrite length_app. cbn [length]. rewrite Nat.add_1_r.
  cbn [Spec.bigEndian]. rewrite fromBigEndian_snoc.
  rewrite Z.div_add_l, (Z.div_small b), Z.add_0_r by lia.
  rewrite IH by exact Hd.
  rewrite Z.add_comm, Z.mod_add, Z.mod_small by lia. reflexivity.
Qed.

(** X9.  The Base32 text of [n] bytes has [ceil(8n / 5)] characters, whatever
    the bytes are; the inner loop always runs to its exit test.  A 16-byte
    secret gives 26 characters, no byte gives the empty text. *)
Theorem base32Encode_length data :
  Z.of_nat (length (Browser.base32Encode data)) = (8 * Z.of_nat (length data) + 4) / 5
  /\ (length data = 16%nat -> length (Browser.base32Encode data) = 26%nat)
  /\ Browser.base32Encode [] = [].
Proof.
  assert (C := base32Encode_count data).
  split; [exact C|]. split; [|reflexivity].
  intros L. rewrite L in C. change ((8 * Z.of_nat 16 + 4) / 5) with 26 in C. lia.
Qed.

(** X10.  Read as a number in base 32 (A = 0 ... Z = 25, 2 = 26 ... 7 = 31),
    the Base32 text of a byte sequence is the sequence read as a number in
    base 256, shifted left by the zero bits (fewer than 5) that fill the last
    character: the 32-bit wrap of the encoder's accumulator loses nothing. *)
Theorem base32Encode_number data :
  forallb Spec.isByte data = true ->
  let pad := 5 * Z.of_nat (length (Browser.base32Encode data))
             - 8 * Z.of_nat (length data) in
  0 <= pad < 5
  /\ Spec.base32Value (Browser.base32Encode data) = Spec.fromBigEndian data * 2 ^ pad.
Proof. apply base32Encode_value. Qed.

Lemma base32Encode_number_witness :
  let pad := 5 * Z.of_nat (length (Browser.base32Encode sampleSecret))
             - 8 * Z.of_nat (length sampleSecret) in
  0 <= pad < 5
  /\ Spec.base32Value (Browser.base32Encode sampleSecret) =
     Spec.fromBigEndian sampleSecret * 2 ^ pad.
Proof.
  apply base32Encode_number. vm_compute. reflexivity.
Defined.

(** X11.  Two byte sequences with the same Base32 text are the same
    sequence: distinct secrets never share a [secret] parameter. *)
Theorem base32Encode_injective d1 d2 :
  forallb Spec.isByte d1 = true ->
  forallb Spec.isByte d2 = true ->
  Browser.base32Encode d1 = Browser.base32Encode d2 ->
  d1 = d2.
Proof.
  intros H1 H2 E.
  destruct (base32Encode_value d1 H1) as [P1 V1].
  destruct (base32Encode_value d2 H2) as [P2 V2].
  rewrite E in P1, V1.
  assert (L : length d1 = length d2) by lia.
  rewrite L in V1. rewrite V1 in V2.
  apply Z.mul_reg_r in V2; [|apply Z.pow_nonzero; lia].
  rewrite <- (bigEndian_fromBigEndian d1 H1), <- (bigEndian_fromBigEndian d2 H2).
  now rewrite L, V2.
Qed.

Lemma base32Encode_injective_witness :
  [0x8a; 0x7c; 0xe0; 0xb7; 0xb0] = firstn 5 sampleSecret.
Proof.
  apply base32Encode_injective; vm_compute; reflexivity.
Defined.

(** ** The browser's validation and what it lets through *)

Lemma decimalFrom_bound s : forall acc,
  forallb isDecimalDigit s = true -> 0 <= acc ->
  Spec.decimalFrom acc s < (acc + 1) * 10 ^ Z.of_nat (length s).
Proof.
  induction s as [|c s IH]; intros acc H Ha; cbn [Spec.decimalFrom forallb length] in *.
  - change (10 ^ Z.of_nat 0) with 1. lia.
  - apply andb_true_iff in H as [Hc Hs]. apply isDecimalDigit_range in Hc.
    specialize (IH (10 * acc + (c - 48)) Hs ltac:(lia)).
    rewrite Nat2Z.inj_succ, Z.pow_succ_r by lia.
    assert (P : 0 < 10 ^ Z.of_nat (length s)) by (apply Z.pow_pos_nonneg; lia).
    nia.
Qed.

Lemma decimal_bound s n :
  forallb isDecimalDigit s = true -> (length s <= n)%nat ->
  Spec.decimal s < 10 ^ Z.of_nat n.
Proof.
  intros H L. assert (B := decimalFrom_bound s 0 H ltac:(lia)).
  unfold Spec.decimal.
  assert (M : 10 ^ Z.of_nat (length s) <= 10 ^ Z.of_nat n)
    by (apply Z.pow_le_mono_r; lia).
  lia.
Qed.

Lemma residue_length code :
  length (Spec.residue code) = pred (length (EntrustTotp.parseCode code)).
Proof.
  unfold Spec.residue. rewrite removelast_firstn_len, length_firstn.
  change (Spec.normalize code) with (EntrustTotp.parseCode code). lia.
Qed.

(** What an accepted form guarantees. *)
Lemma validateInputs_accepts serial act reg accountName :
  Browser.validateInputs serial act reg accountName = None ->
  forallb Spec.isDigitOrHyphen serial = true
  /\ forallb Spec.isDigitOrHyphen act = true
  /\ forallb Spec.isDigitOrHyphen reg = true
  /\ accountName <> []
  /\ (5 <= length (EntrustTotp.parseCode serial) <= 20)%nat
  /\ (10 <= length (EntrustTotp.parseCode act) <= 20)%nat
  /\ (5 <= length (EntrustTotp.parseCode reg) <= 15)%nat.
Proof.
  unfold Browser.validateInputs.
  change Browser.parseCode with EntrustTotp.parseCode.
  destruct (_ || _) eqn:E; [discriminate|].
  assert (D : forall s, Browser.digitsAndHyphens s = true ->
                        forallb Spec.isDigitOrHyphen s = true).
  { intros [|c s]; [reflexivity | exact (fun H => H)]. }
  destruct (Browser.digitsAndHyphens serial) eqn:Cs; [|discriminate].
  destruct (Browser.digitsAndHyphens act) eqn:Ca; [|discriminate].
  destruct (Browser.digitsAndHyphens reg) eqn:Cr; [|discriminate].
  cbn [negb].
  destruct (Nat.ltb_spec (length (EntrustTotp.parseCode serial)) 5); [discriminate|].
  destruct (Nat.ltb_spec 20 (length (EntrustTotp.parseCode serial))); [discriminate|].
  destruct (Nat.ltb_spec (length (EntrustTotp.parseCode act)) 10); [discriminate|].
  destruct (Nat.ltb_spec 20 (length (EntrustTotp.parseCode act))); [discriminate|].
  destruct (Nat.ltb_spec (length (EntrustTotp.parseCode reg)) 5); [discriminate|].
  destruct (Nat.ltb_spec 15 (length (EntrustTotp.parseCode reg))); [discriminate|].
  intros _.
  apply orb_false_iff in E as [E Eacc].
  repeat split; try (apply D; assumption); try lia.
  intros ->. discriminate.
Qed.

(** X12.  A form that [validateInputs] accepts never makes the browser
    deriver throw: the activation value is below 10^19 and the registration
    value below 10^14, and the secret is PBKDF2 of the specification's
    packing of them, high bytes dropped.  The validation does not bound the
    registration value by 2^32: the command-line deriver throws [RangeError]
    on the same input exactly when that value is 2^32 or more. *)
Theorem validated_input_derives serial act reg accountName policy :
  Browser.validateInputs serial act reg accountName = None ->
  Spec.decimal (Spec.residue act) < 10 ^ 19
  /\ Spec.decimal (Spec.residue reg) < 10 ^ 14
  /\ Browser.generateOtpSecret serial act reg policy =
     Ok (Crypto.pbkdf2HmacSha256
           (Spec.password (Spec.decimal (Spec.residue act))
                          (Spec.decimal (Spec.residue reg)) policy)
           (Spec.salt serial) 8 16)
  /\ (EntrustTotp.generateOtpSecret serial act reg policy = Throw RangeError
      <-> 2 ^ 32 <= Spec.decimal (Spec.residue reg))
  /\ (Spec.decimal (Spec.residue reg) < 2 ^ 32 ->
      EntrustTotp.generateOtpSecret serial act reg policy =
      Browser.generateOtpSecret serial act reg policy).
Proof.
  intros V. destruct (validateInputs_accepts _ _ _ _ V) as (Hs & Ha & Hr & _ & Ls & La & Lr).
  assert (Ba : Spec.decimal (Spec.residue act) < 10 ^ 19).
  { apply (decimal_bound _ 19); [now apply residue_digits|].
    rewrite residue_length. lia. }
  assert (Br : Spec.decimal (Spec.residue reg) < 10 ^ 14).
  { apply (decimal_bound _ 14); [now apply residue_digits|].
    rewrite residue_length. lia. }
  assert (B : Browser.generateOtpSecret serial act reg policy =
              Ok (Crypto.pbkdf2HmacSha256
                    (Spec.password (Spec.decimal (Spec.residue act))
                                   (Spec.decimal (Spec.residue reg)) policy)
                    (Spec.salt serial) 8 16)).
  { rewrite browser_generateOtpSecret_unfold, browser_kdfPassword_digits
      by (first [assumption | lia]). reflexivity. }
  split; [exact Ba|]. split; [exact Br|]. split; [exact B|].
  rewrite B, cli_generateOtpSecret_unfold, cli_kdfPassword_digits by assumption.
  rewrite (proj2 (Z.ltb_lt _ (2 ^ 64))) by lia. cbn [andb].
  destruct (Z.ltb_spec (Spec.decimal (Spec.residue reg)) (2 ^ 32)); cbn [bind]; split.
  - split; [discriminate | lia].
  - reflexivity.
  - split; [lia | reflexivity].
  - lia.
Qed.

Lemma validated_input_derives_witness :
  Spec.decimal (Spec.residue (lit "1234-5678-9012-3456")) < 10 ^ 19
  /\ Spec.decimal (Spec.residue (lit "42949-67296-0")) < 10 ^ 14
  /\ Browser.generateOtpSecret (lit "12345-67890") (lit "1234-5678-9012-3456")
                               (lit "42949-67296-0") [] =
     Ok (Crypto.pbkdf2HmacSha256
           (Spec.password (Spec.decimal (Spec.residue (lit "1234-5678-9012-3456")))
                          (Spec.decimal (Spec.residue (lit "42949-67296-0"))) [])
           (Spec.salt (lit "12345-67890")) 8 16)
  /\ (EntrustTotp.generateOtpSecret (lit "12345-67890") (lit "1234-5678-9012-3456")
                                    (lit "42949-67296-0") [] = Throw RangeError
      <-> 2 ^ 32 <= Spec.decimal (Spec.residue (lit "42949-67296-0")))
  /\ (Spec.decimal (Spec.residue (lit "42949-67296-0")) < 2 ^ 32 ->
      EntrustTotp.generateOtpSecret (lit "12345-67890") (lit "1234-5678-9012-3456")
                                    (lit "42949-67296-0") [] =
      Browser.generateOtpSecret (lit "12345-67890") (lit "1234-5678-9012-3456")
                                (lit "42949-67296-0") []).
Proof.
  apply (validated_input_derives _ _ _ (lit "user@example.com")).
  vm_compute. reflexivity.
Defined.

(** ** Reading the URI back *)











(** ** The command line *)

Lemma falsy_orElse a b :
  EntrustTotp.falsy (EntrustTotp.orElse a b) = EntrustTotp.falsy a && EntrustTotp.falsy b.
Proof. destruct a as [[|c s]|]; reflexivity. Qed.

Lemma orElse_given s b : s <> [] -> EntrustTotp.orElse (Some s) b = Some s.
Proof. destruct s; [congruence | reflexivity]. Qed.

(** X14.  [main] prints the usage text and exits, deriving nothing, exactly
    when one of the serial, the activation code, the registration code or the
    account name is absent or empty both on the command line and in the
    environment; the issuer is never required. *)
Theorem main_usage_iff_parameter_missing args env :
  EntrustTotp.main args env = EntrustTotp.Usage
  <-> (EntrustTotp.falsy (nth_error args 0) && EntrustTotp.falsy (EntrustTotp.SERIAL env))
      || (EntrustTotp.falsy (nth_error args 1)
          && EntrustTotp.falsy (EntrustTotp.ACTIVATION_CODE env))
      || (EntrustTotp.falsy (nth_error args 2)
          && EntrustTotp.falsy (EntrustTotp.REGISTRATION_CODE env))
      || (EntrustTotp.falsy (nth_error args 3)
          && EntrustTotp.falsy (EntrustTotp.ACCOUNT_NAME env)) = true.
Proof.
  unfold EntrustTotp.main. rewrite <- !falsy_orElse.
  destruct (_ || _ || _ || _); split; try reflexivity; try discriminate.
  destruct (EntrustTotp.generateOtpSecret _ _ _ _); [|discriminate].
  destruct (EntrustTotp.generateOtpauthUri _ _ _); discriminate.
Qed.

(** X15.  A non-empty command-line argument wins over the environment, and
    arguments after the fifth are ignored: with five non-empty arguments
    [main] does the same under every environment.  An environment that sets
    all five variables stands in for the arguments when none is given. *)
Theorem main_arguments_override_environment a0 a1 a2 a3 a4 rest env env' :
  a0 <> [] -> a1 <> [] -> a2 <> [] -> a3 <> [] -> a4 <> [] ->
  EntrustTotp.main (a0 :: a1 :: a2 :: a3 :: a4 :: rest) env =
  EntrustTotp.main [a0; a1; a2; a3; a4] env'
  /\ EntrustTotp.main []
       (EntrustTotp.mkEnv (Some a0) (Some a1) (Some a2) (Some a3) (Some a4)) =
     EntrustTotp.main [a0; a1; a2; a3; a4] env'.
Proof.
  intros H0 H1 H2 H3 H4. unfold EntrustTotp.main.
  cbn [nth_error EntrustTotp.SERIAL EntrustTotp.ACTIVATION_CODE
       EntrustTotp.REGISTRATION_CODE EntrustTotp.ACCOUNT_NAME EntrustTotp.ISSUER].
  rewrite !orElse_given by assumption.
  destruct a0, a1, a2, a3, a4; try congruence. split; reflexivity.
Qed.

Lemma main_arguments_override_environment_witness :
  EntrustTotp.main [lit "12345-67890"; lit "1234-5678-9012-3456"; lit "98765-43210";
                    lit "user@example.com"; lit "MyCompany"; lit "extra"]
                   (EntrustTotp.mkEnv (Some (lit "0")) None (Some []) None
                                      (Some (lit "Other"))) =
  EntrustTotp.main [lit "12345-67890"; lit "1234-5678-9012-3456"; lit "98765-43210";
                    lit "user@example.com"; lit "MyCompany"]
                   (EntrustTotp.mkEnv None None None None None)
  /\ EntrustTotp.main []
       (EntrustTotp.mkEnv (Some (lit "12345-67890")) (Some (lit "1234-5678-9012-3456"))
                          (Some (lit "98765-43210")) (Some (lit "user@example.com"))
                          (Some (lit "MyCompany"))) =
     EntrustTotp.main [lit "12345-67890"; lit "1234-5678-9012-3456"; lit "98765-43210";
                       lit "user@example.com"; lit "MyCompany"]
                      (EntrustTotp.mkEnv None None None None None).
Proof.
  apply main_arguments_override_environment; vm_compute; discriminate.
Defined.

(** X16.  Given a serial, codes of digits and hyphens whose values fit 64 and
    32 bits, and a well-formed account name, with no issuer on the command
    line or in the environment, [main] prints the URI of issuer [Entrust]
    whose secret is the Base32 text of PBKDF2 over the 9-byte password: no
    policy ever reaches the derivation from the command line. *)
Theorem main_prints_the_uri serial act reg accountName env :
  serial <> [] -> act <> [] -> reg <> [] -> accountName <> [] ->
  forallb Spec.isDigitOrHyphen act = true ->
  forallb Spec.isDigitOrHyphen reg = true ->
  Spec.decimal (Spec.residue act) < 2 ^ 64 ->
  Spec.decimal (Spec.residue reg) < 2 ^ 32 ->
  isWellFormed accountName = true ->
  EntrustTotp.falsy (EntrustTotp.ISSUER env) = true ->
  exists encAccount,
    Web.encodeURIComponent accountName = Ok encAccount
    /\ EntrustTotp.main [serial; act; reg; accountName] env =
       EntrustTotp.Printed
         (lit "otpauth://totp/Entrust%3A" ++ encAccount ++ lit "?secret="
            ++ Browser.base32Encode
                 (Crypto.pbkdf2HmacSha256
                    (Spec.activationBytes7 (Spec.decimal (Spec.residue act))
                       ++ Spec.rngBytes (Spec.decimal (Spec.residue reg)))
                    (Spec.salt serial) 8 16)
            ++ lit "&issuer=Entrust&algorithm=SHA256&digits=6&period=30").
Proof.
  intros Ns Na Nr Nn Ha Hr Ba Br Wn Fi.
  destruct (encodeURIComponent_wellFormed accountName Wn) as (ea & Ea & _).
  exists ea. split; [exact Ea|].
  unfold EntrustTotp.main. cbn [nth_error].
  rewrite !orElse_given by assumption.
  assert (I : EntrustTotp.orElse (EntrustTotp.orElse None (EntrustTotp.ISSUER env))
                                 (Some (lit "Entrust")) = Some (lit "Entrust")).
  { cbn [EntrustTotp.orElse]. now destruct (EntrustTotp.ISSUER env) as [[|c s]|]. }
  rewrite I. cbn [EntrustTotp.text].
  assert (F : forall s, s <> [] -> EntrustTotp.falsy (Some s) = false)
    by (intros [|c s]; [congruence | reflexivity]).
  rewrite !F by assumption. cbn [orb].
  rewrite cli_generateOtpSecret_unfold, cli_kdfPassword_digits by assumption.
  rewrite (proj2 (Z.ltb_lt _ _) Ba), (proj2 (Z.ltb_lt _ _) Br). cbn [andb bind].
  rewrite generateOtpauthUri_shape.
  rewrite (encodeURIComponent_app (lit "Entrust")) by reflexivity.
  change (Web.encodeURIComponent (lit "Entrust")) with (@Ok jsstring (lit "Entrust")).
  cbn [bind].
  change (Web.encodeURIComponent (lit ":" ++ accountName))
    with (r <- Web.encodeURIComponent accountName ;; Ok (lit "%3A" ++ r)).
  rewrite Ea. cbn [bind].
  unfold Spec.password. cbn [Spec.policyBytes]. rewrite app_nil_r.
  reflexivity.
Qed.

Lemma main_prints_the_uri_witness :
  exists encAccount,
    Web.encodeURIComponent (lit "user@example.com") = Ok encAccount
    /\ EntrustTotp.main [lit "00001-00000"; lit "0000000000001-9"; lit "00001-00000-9";
                         lit "user@example.com"]
                        (EntrustTotp.mkEnv None None None None (Some [])) =
       EntrustTotp.Printed
         (lit "otpauth://totp/Entrust%3A" ++ encAccount ++ lit "?secret="
            ++ Browser.base32Encode
                 (Crypto.pbkdf2HmacSha256
                    (Spec.activationBytes7
                       (Spec.decimal (Spec.residue (lit "0000000000001-9")))
                       ++ Spec.rngBytes
                            (Spec.decimal (Spec.residue (lit "00001-00000-9"))))
                    (Spec.salt (lit "00001-00000")) 8 16)
            ++ lit "&issuer=Entrust&algorithm=SHA256&digits=6&period=30").
Proof.
  apply main_prints_the_uri; vm_compute; first [reflexivity | discriminate].
Defined.

Example main_end_to_end :
  EntrustTotp.main [lit "00001-00000"; lit "0000000000001-9"; lit "00001-00000-9";
                    lit "user@example.com"]
                   (EntrustTotp.mkEnv None None None None None) =
  EntrustTotp.Printed
    (lit "otpauth://totp/Entrust%3Auser%40example.com?secret=RJ6OBN5QZOX4G53EEQAIDVR2IA&issuer=Entrust&algorithm=SHA256&digits=6&period=30").
Proof. vm_compute. reflexivity. Qed.

(** ** The form *)

Lemma generateOtpauthUri_succeeds issuer accountName secret :
  isWellFormed issuer = true -> isWellFormed accountName = true ->
  exists uri, Browser.generateOtpauthUri issuer accountName secret = Ok uri.
Proof.
  intros Wi Wa.
  destruct (encodeURIComponent_wellFormed issuer Wi) as (ei & Ei & _).
  destruct (encodeURIComponent_wellFormed accountName Wa) as (ea & Ea & _).
  rewrite browser_generateOtpauthUri, generateOtpauthUri_shape.
  rewrite encodeURIComponent_app by exact Wi. rewrite Ei. cbn [bind].
  change (Web.encodeURIComponent (lit ":" ++ accountName))
    with (r <- Web.encodeURIComponent accountName ;; Ok (lit "%3A" ++ r)).
  rewrite Ea. cbn [bind]. eexists. reflexivity.
Qed.

(** X17.  On well-formed text [handleFormSubmit] never reaches its [catch]:
    it shows the message of [validateInputs] when that rejects the trimmed
    fields, and otherwise the URI built from the secret of the trimmed codes
    with an empty policy, under the issuer [Entrust] when the issuer field is
    blank. *)
Theorem handleFormSubmit_shows serial act reg accountName issuer :
  isWellFormed (trim accountName) = true ->
  isWellFormed (trim issuer) = true ->
  match Browser.validateInputs (trim serial) (trim act) (trim reg) (trim accountName) with
  | Some e =>
      Browser.handleFormSubmit serial act reg accountName issuer =
      Browser.ValidationError e
  | None =>
      exists uri,
        Browser.handleFormSubmit serial act reg accountName issuer = Browser.Result uri
        /\ Browser.generateOtpauthUri
             (match trim issuer with [] => lit "Entrust" | i => i end)
             (trim accountName)
             (Crypto.pbkdf2HmacSha256
                (Spec.password (Spec.decimal (Spec.residue (trim act)))
                               (Spec.decimal (Spec.residue (trim reg))) [])
                (Spec.salt (trim serial)) 8 16) = Ok uri
  end.
Proof.
  intros Wn Wi. unfold Browser.handleFormSubmit.
  destruct (Browser.validateInputs _ _ _ _) as [e|] eqn:V; [reflexivity|].
  destruct (validateInputs_accepts _ _ _ _ V) as (Hs & Ha & Hr & _ & Ls & La & Lr).
  assert (Br : Spec.decimal (Spec.residue (trim reg)) < 10 ^ 14).
  { apply (decimal_bound _ 14); [now apply residue_digits|].
    rewrite residue_length. lia. }
  rewrite browser_generateOtpSecret_unfold, browser_kdfPassword_digits
    by (first [assumption | lia]).
  cbn [bind].
  assert (W : isWellFormed (match trim issuer with [] => lit "Entrust" | i => i end) = true).
  { destruct (trim issuer); [reflexivity | exact Wi]. }
  destruct (generateOtpauthUri_succeeds _ _
              (Crypto.pbkdf2HmacSha256
                 (Spec.password (Spec.decimal (Spec.residue (trim act)))
                                (Spec.decimal (Spec.residue (trim reg))) [])
                 (Spec.salt (trim serial)) 8 16) W Wn) as (uri & U).
  exists uri. rewrite U. split; reflexivity.
Qed.

Lemma handleFormSubmit_shows_witness :
  exists uri,
    Browser.handleFormSubmit (lit " 12345-67890 ") (lit "1234-5678-9012-3456")
                             (lit "98765-43210") (lit "user@example.com ") (lit "  ") =
    Browser.Result uri
    /\ Browser.generateOtpauthUri
         (lit "Entrust") (lit "user@example.com")
         (Crypto.pbkdf2HmacSha256
            (Spec.password
               (Spec.decimal (Spec.residue (trim (lit "1234-5678-9012-3456"))))
               (Spec.decimal (Spec.residue (trim (lit "98765-43210")))) [])
            (Spec.salt (trim (lit " 12345-67890 "))) 8 16) = Ok uri.
Proof.
  exact (handleFormSubmit_shows (lit " 12345-67890 ") (lit "1234-5678-9012-3456")
           (lit "98765-43210") (lit "user@example.com ") (lit "  ") eq_refl eq_refl).
Defined.

(** ** The hash-based deriver of [generate-otpauth-uri.js] *)

Lemma digits_ascii s :
  forallb Spec.isDigitOrHyphen s = true ->
  forallb (fun c => c <? 128) (GenerateOtpauthUri.parseCode s) = true.
Proof.
  intros H. apply forallb_forall. intros c Hc.
  unfold GenerateOtpauthUri.parseCode, removeAll in Hc.
  apply filter_In in Hc as [Hc _].
  assert (D := proj1 (forallb_forall _ _) H c Hc).
  unfold Spec.isDigitOrHyphen in D. apply orb_true_iff in D as [D|D].
  - apply isDecimalDigit_range in D. apply Z.ltb_lt. lia.
  - apply Z.eqb_eq in D. subst c. reflexivity.
Qed.

(** X18.  The deriver of [generate-otpauth-uri.js] hashes the three
    normalised codes end to end: on codes of digits and hyphens its 16 bytes
    are the first half of the SHA-256 of the concatenated digits, so
    the borders between serial, activation code and registration code, the
    check digits' special role and the policy leave no trace in it. *)
Theorem hash_deriver_reads_concatenation serial act reg policy serial' act' reg' policy' :
  forallb Spec.isDigitOrHyphen serial = true ->
  forallb Spec.isDigitOrHyphen act = true ->
  forallb Spec.isDigitOrHyphen reg = true ->
  forallb Spec.isDigitOrHyphen serial' = true ->
  forallb Spec.isDigitOrHyphen act' = true ->
  forallb Spec.isDigitOrHyphen reg' = true ->
  Spec.normalize serial ++ Spec.normalize act ++ Spec.normalize reg =
  Spec.normalize serial' ++ Spec.normalize act' ++ Spec.normalize reg' ->
  GenerateOtpauthUri.generateOtpSecret serial act reg policy =
  firstn 16 (Crypto.sha256 (Spec.normalize serial ++ Spec.normalize act
                              ++ Spec.normalize reg))
  /\ length (GenerateOtpauthUri.generateOtpSecret serial act reg policy) = 16%nat
  /\ GenerateOtpauthUri.generateOtpSecret serial act reg policy =
     GenerateOtpauthUri.generateOtpSecret serial' act' reg' policy'.
Proof.
  intros Hs Ha Hr Hs' Ha' Hr' E.
  assert (G : forall s a r p,
             forallb Spec.isDigitOrHyphen s = true ->
             forallb Spec.isDigitOrHyphen a = true ->
             forallb Spec.isDigitOrHyphen r = true ->
             GenerateOtpauthUri.generateOtpSecret s a r p =
             firstn 16 (Crypto.sha256 (Spec.normalize s ++ Spec.normalize a
                                         ++ Spec.normalize r))).
  { intros s a r p Ks Ka Kr. unfold GenerateOtpauthUri.generateOtpSecret.
    rewrite !utf8Encode_ascii by (now apply digits_ascii). reflexivity. }
  rewrite !G by assumption. split; [reflexivity|]. split.
  - rewrite length_firstn, sha256_length. reflexivity.
  - now rewrite E.
Qed.

Lemma hash_deriver_reads_concatenation_witness :
  GenerateOtpauthUri.generateOtpSecret (lit "12345-67890") (lit "1234-5678-9012-3456")
                                       (lit "98765-43210") [] =
  firstn 16 (Crypto.sha256 (Spec.normalize (lit "12345-67890")
                              ++ Spec.normalize (lit "1234-5678-9012-3456")
                              ++ Spec.normalize (lit "98765-43210")))
  /\ length (GenerateOtpauthUri.generateOtpSecret (lit "12345-67890")
               (lit "1234-5678-9012-3456") (lit "98765-43210") []) = 16%nat
  /\ GenerateOtpauthUri.generateOtpSecret (lit "12345-67890") (lit "1234-5678-9012-3456")
                                          (lit "98765-43210") [] =
     GenerateOtpauthUri.generateOtpSecret (lit "1234-5678") (lit "90-12345678901234")
                                          (lit "5698765-43210") (lit "{}").
Proof.
  apply hash_deriver_reads_concatenation; vm_compute; reflexivity.
Defined.

(** ** Characters that are not digits *)

Lemma dropWhile_keeps {A} (p : A -> bool) l x :
  In x l -> p x = false -> In x (dropWhile p l).
Proof.
  induction l as [|y l IH]; intros Hin Hx; [destruct Hin|].
  cbn [dropWhile]. destruct (p y) eqn:Py; [|exact Hin].
  destruct Hin as [->|Hin]; [congruence | now apply IH].
Qed.

Lemma trim_keeps s c : In c s -> isStrWhiteSpaceChar c = false -> In c (trim s).
Proof.
  intros Hin Hc. unfold trim, trimEnd, trimStart.
  apply in_rev. rewrite rev_involutive.
  apply dropWhile_keeps; [|exact Hc].
  apply -> in_rev. now apply dropWhile_keeps.
Qed.

Lemma radix10_digit c : isRadixDigit 10 c = isDecimalDigit c.
Proof.
  unfold isRadixDigit, digitValue.
  destruct (isDecimalDigit c) eqn:D.
  - apply isDecimalDigit_range in D. apply Z.ltb_lt. lia.
  - destruct ((97 <=? c) && (c <=? 122)) eqn:L.
    + apply andb_true_iff in L as [L1 L2]. apply Z.leb_le in L1. apply Z.ltb_ge. lia.
    + destruct ((65 <=? c) && (c <=? 90)) eqn:U; [|reflexivity].
      apply andb_true_iff in U as [U1 U2]. apply Z.leb_le in U1. apply Z.ltb_ge. lia.
Qed.

Lemma parseDigits_rejects s c :
  In c s -> isDecimalDigit c = false -> parseDigits 10 s = None.
Proof.
  intros Hin Hc. unfold parseDigits. destruct s as [|x s]; [reflexivity|].
  destruct (forallb (isRadixDigit 10) (x :: s)) eqn:F; [|reflexivity].
  assert (R := proj1 (forallb_forall _ _) F c Hin).
  rewrite radix10_digit in R. congruence.
Qed.

(** X19.  The activation code is read strictly.  When what is left of it
    after hyphen and check-digit removal starts with a digit from 1 to 9 and
    holds a character that is neither a digit nor white space, both derivers
    throw [SyntaxError], whatever the other arguments are. *)
Theorem activation_read_strictly serial act reg policy d rest c :
  Spec.residue act = d :: rest ->
  49 <= d <= 57 ->
  In c rest -> isDecimalDigit c = false -> isStrWhiteSpaceChar c = false ->
  EntrustTotp.generateOtpSecret serial act reg policy = Throw SyntaxError
  /\ Browser.generateOtpSecret serial act reg policy = Throw SyntaxError.
Proof.
  intros R Hd Hin Hc Hw.
  assert (B : BigInt (Spec.residue act) = Throw SyntaxError).
  { unfold BigInt, StringToBigInt. rewrite R.
    assert (T : trim (d :: rest) = d :: tl (trim (d :: rest))
                /\ In c (tl (trim (d :: rest)))).
    { assert (K := trim_keeps (d :: rest) c (or_intror Hin) Hw).
      assert (Wd : isStrWhiteSpaceChar d = false)
        by (apply digit_not_space, isDecimalDigit_range; lia).
      unfold trim, trimStart in *. rewrite dropWhile_head in * by exact Wd.
      unfold trimEnd in *.
      destruct (rev (dropWhile isStrWhiteSpaceChar (rev (d :: rest)))) as [|x l] eqn:E;
        [destruct K|].
      assert (X : x = d).
      { assert (P : exists m, dropWhile isStrWhiteSpaceChar (rev (d :: rest)) = m ++ [d]).
        { cbn [rev]. generalize (rev rest). intros l0.
          induction l0 as [|y l0 IH]; cbn [app dropWhile].
          - rewrite Wd. now exists [].
          - destruct (isStrWhiteSpaceChar y); [exact IH | now exists (y :: l0)]. }
        destruct P as (m & P). rewrite P, rev_app_distr in E. cbn [rev app] in E.
        congruence. }
      subst x. cbn [tl]. split; [reflexivity|].
      destruct K as [K|K]; [|exact K]. subst c.
      assert (isDecimalDigit d = true) by (apply isDecimalDigit_range; lia). congruence. }
    destruct T as [T Hin']. rewrite T.
    assert (P : nonDecimalPrefix (d :: tl (trim (d :: rest))) = None).
    { unfold nonDecimalPrefix. destruct (tl (trim (d :: rest))); [reflexivity|].
      change (ch "0") with 48. now rewrite (proj2 (Z.eqb_neq d 48)) by lia. }
    rewrite P. change (ch "+") with 43. change (ch "-") with 45.
    rewrite (proj2 (Z.eqb_neq d 43)), (proj2 (Z.eqb_neq d 45)) by lia.
    now rewrite (parseDigits_rejects (d :: tl (trim (d :: rest))) c (or_intror Hin') Hc). }
  split.
  - unfold EntrustTotp.generateOtpSecret. rewrite cli_residue, B. reflexivity.
  - unfold Browser.generateOtpSecret. rewrite browser_residue, B. reflexivity.
Qed.

Lemma activation_read_strictly_witness :
  EntrustTotp.generateOtpSecret (lit "12345-67890") (lit "1234-5678-9O12-3456")
                                (lit "98765-43210") [] = Throw SyntaxError
  /\ Browser.generateOtpSecret (lit "12345-67890") (lit "1234-5678-9O12-3456")
                               (lit "98765-43210") [] = Throw SyntaxError.
Proof.
  apply (activation_read_strictly _ (lit "1234-5678-9O12-3456") _ _
           (ch "1") (lit "23456789O12345") (ch "O"));
    vm_compute; first [reflexivity | discriminate | tauto | split; discriminate].
Defined.

(** [parseInt] stops at the first character that is not a digit. *)
Lemma parseInt_leading_digits ds c rest :
  ds <> [] -> forallb isDecimalDigit ds = true -> isDecimalDigit c = false ->
  c <> 120 -> c <> 88 ->
  parseInt (ds ++ c :: rest) = Int (Spec.decimal ds).
Proof.
  intros Hne H Hc Hx HX. destruct ds as [|d ds']; [congruence|].
  assert (Hd : 48 <= d <= 57).
  { simpl in H. apply andb_true_iff in H as [Hd _]. now apply isDecimalDigit_range. }
  cbn [app]. unfold parseInt, trimStart. rewrite dropWhile_head
    by (apply digit_not_space; now apply isDecimalDigit_range).
  cbv [ch N_of_ascii N_of_digits Z.of_N N.add N.mul Pos.add Pos.mul Pos.succ].
  decide_cmp.
  assert (E : (let '(R, S2) :=
                 match ds' ++ c :: rest with
                 | [] => (10, d :: ds' ++ c :: rest)
                 | b :: r =>
                     if (d =? 48) && ((b =? 120) || (b =? 88)) then (16, r)
                     else (10, d :: ds' ++ c :: rest)
                 end in
               match takeWhile (isRadixDigit R) S2 with
               | [] => NaN
               | x :: xs => Int (1 * digitsValue R (x :: xs))
               end) = Int (Spec.decimal (d :: ds'))).
  { assert (X : match ds' ++ c :: rest with
                | [] => (10, d :: ds' ++ c :: rest)
                | b :: r =>
                    if (d =? 48) && ((b =? 120) || (b =? 88)) then (16, r)
                    else (10, d :: ds' ++ c :: rest)
                end = (10, (d :: ds') ++ c :: rest)).
    { destruct ds' as [|b r]; cbn [app].
      - decide_cmp. simpl. now rewrite andb_false_r.
      - assert (Hb : 48 <= b <= 57).
        { simpl in H. apply andb_true_iff in H as [_ H].
          apply andb_true_iff in H as [Hb _]. now apply isDecimalDigit_range. }
        decide_cmp. simpl. now rewrite andb_false_r. }
    rewrite X.
    rewrite takeWhile_app_stop.
    - rewrite digitsValue_decimal by exact H. f_equal. lia.
    - apply forallb_forall. intros x Hin. apply digit_radix10.
      revert x Hin. now apply forallb_forall.
    - now rewrite radix10_digit. }
  exact E.
Qed.

(** X20.  The registration code is read leniently.  When what is left of it
    after hyphen and check-digit removal is a non-empty run of digits [ds]
    followed by a character that is no digit (and not the [x] of a
    hexadecimal prefix), everything from that character on is ignored: both
    derivers behave as on a registration code whose residue is [ds]. *)
Theorem registration_reads_leading_digits serial act reg reg' policy ds c rest :
  Spec.residue reg = ds ++ c :: rest ->
  Spec.residue reg' = ds ->
  ds <> [] -> forallb isDecimalDigit ds = true ->
  isDecimalDigit c = false -> c <> ch "x" -> c <> ch "X" ->
  EntrustTotp.generateOtpSecret serial act reg policy =
  EntrustTotp.generateOtpSecret serial act reg' policy
  /\ Browser.generateOtpSecret serial act reg policy =
     Browser.generateOtpSecret serial act reg' policy.
Proof.
  intros R R' Hne H Hc Hx HX.
  assert (P : parseInt (Spec.residue reg) = parseInt (Spec.residue reg')).
  { rewrite R, R', parseInt_leading_digits by assumption.
    rewrite parseInt_digits by exact H. destruct ds; [congruence | reflexivity]. }
  split.
  - unfold EntrustTotp.generateOtpSecret. rewrite !cli_residue, P. reflexivity.
  - unfold Browser.generateOtpSecret. rewrite !browser_residue, P. reflexivity.
Qed.

Lemma registration_reads_leading_digits_witness :
  EntrustTotp.generateOtpSecret (lit "12345-67890") (lit "1234-5678-9012-3456")
                                (lit "12a45-67890") [] =
  EntrustTotp.generateOtpSecret (lit "12345-67890") (lit "1234-5678-9012-3456")
                                (lit "120") []
  /\ Browser.generateOtpSecret (lit "12345-67890") (lit "1234-5678-9012-3456")
                               (lit "12a45-67890") [] =
     Browser.generateOtpSecret (lit "12345-67890") (lit "1234-5678-9012-3456")
                               (lit "120") [].
Proof.
  apply (registration_reads_leading_digits _ _ (lit "12a45-67890") (lit "120") _
           (lit "12") (ch "a") (lit "456789"));
    vm_compute; first [reflexivity | discriminate].
Defined.
